(** * hls-downloader: the path mapper and the download coordinator

    A shallow embedding of [downloader.py] (class [Downloader]) and the
    properties of its URI-to-path mapping and of its skip / verify-size /
    re-fetch decision.

    Python [str] values are modelled as [string]: sequences of characters
    with the codes 0 to 255, the Latin-1 part of unicode text, which is what
    an HTTP header holds.  [bytes] are [list Byte.byte], Python [int] is [Z].
    Exceptions are explicit: every fallible operation returns a [result].
    The platform is POSIX ([os.path.sep] is "/"). *)

From Stdlib Require Import ZArith Ascii String List.
From stdpp Require Import gmap strings list fin_maps.

Local Open Scope string_scope.

(** ** Exceptions and results *)

Inductive exn : Type :=
  | ValueError
  | RequestException
  | UnboundLocalError
  | FileNotFoundError
  | FileExistsError
  | NotADirectoryError
  | IsADirectoryError.

Inductive result (A : Type) : Type :=
  | Ok (a : A)
  | Raise (e : exn).

Arguments Ok {A} a.
Arguments Raise {A} e.

(** ** Python [str] operations used by the program *)

Module PyStr.

(** [str_in c s] is [c in s]. *)
Fixpoint str_in (c : ascii) (s : string) : bool :=
  match s with
  | EmptyString => false
  | String a s' => if Ascii.eqb a c then true else str_in c s'
  end.

(** [str_find c s] is [s.find(c)]: the index of the first [c], if any. *)
Fixpoint str_find (c : ascii) (s : string) : option nat :=
  match s with
  | EmptyString => None
  | String a s' =>
      if Ascii.eqb a c then Some 0%nat
      else match str_find c s' with
           | Some i => Some (S i)
           | None => None
           end
  end.

(** [str_rfind c s] is [s.rfind(c)]: the index of the last [c], if any. *)
Fixpoint str_rfind (c : ascii) (s : string) : option nat :=
  match s with
  | EmptyString => None
  | String a s' =>
      match str_rfind c s' with
      | Some i => Some (S i)
      | None => if Ascii.eqb a c then Some 0%nat else None
      end
  end.

(** The slices [s[:n]] and [s[n:]]. *)
Fixpoint str_take (n : nat) (s : string) : string :=
  match n, s with
  | S n', String a s' => String a (str_take n' s')
  | _, _ => EmptyString
  end.

Fixpoint str_drop (n : nat) (s : string) : string :=
  match n, s with
  | S n', String _ s' => str_drop n' s'
  | _, _ => s
  end.

(** [str_split c s] is [s.split(c)] for a one-character separator. *)
Fixpoint str_split (c : ascii) (s : string) : list string :=
  match s with
  | EmptyString => [EmptyString]
  | String a s' =>
      if Ascii.eqb a c then EmptyString :: str_split c s'
      else match str_split c s' with
           | h :: t => String a h :: t
           | [] => [String a EmptyString]
           end
  end.

(** [str_join sep l] is [sep.join(l)]. *)
Fixpoint str_join (sep : string) (l : list string) : string :=
  match l with
  | [] => EmptyString
  | [s] => s
  | s :: l' => s +:+ sep +:+ str_join sep l'
  end.

Fixpoint str_forall (p : ascii -> bool) (s : string) : bool :=
  match s with
  | EmptyString => true
  | String a s' => p a && str_forall p s'
  end.

(** [s.lstrip(chars)] with the character set given as a predicate. *)
Fixpoint str_lstrip (p : ascii -> bool) (s : string) : string :=
  match s with
  | EmptyString => EmptyString
  | String a s' => if p a then str_lstrip p s' else s
  end.

(** Every character satisfying [p] removed: iterated [s.replace(b, "")]. *)
Fixpoint str_remove (p : ascii -> bool) (s : string) : string :=
  match s with
  | EmptyString => EmptyString
  | String a s' => if p a then str_remove p s' else String a (str_remove p s')
  end.

(** The longest prefix without a character satisfying [p], and the rest. *)
Fixpoint str_break (p : ascii -> bool) (s : string) : string * string :=
  match s with
  | EmptyString => (EmptyString, EmptyString)
  | String a s' =>
      if p a then (EmptyString, s)
      else let '(h, t) := str_break p s' in (String a h, t)
  end.

Definition code (c : ascii) : N := N_of_ascii c.

Definition is_upper (c : ascii) : bool := (65 <=? code c)%N && (code c <=? 90)%N.
Definition is_lower (c : ascii) : bool := (97 <=? code c)%N && (code c <=? 122)%N.
Definition is_digit (c : ascii) : bool := (48 <=? code c)%N && (code c <=? 57)%N.
Definition is_alpha (c : ascii) : bool := is_upper c || is_lower c.

Definition chr_lower (c : ascii) : ascii :=
  if is_upper c then ascii_of_N (code c + 32) else c.

Fixpoint str_lower (s : string) : string :=
  match s with
  | EmptyString => EmptyString
  | String a s' => String (chr_lower a) (str_lower s')
  end.

Definition str_startswith (pre s : string) : bool :=
  String.eqb (str_take (String.length pre) s) pre.

Definition str_endswith_char (c : ascii) (s : string) : bool :=
  match str_rfind c s with
  | Some i => Nat.eqb (S i) (String.length s)
  | None => false
  end.

Definition is_empty (s : string) : bool :=
  match s with EmptyString => true | _ => false end.

(** [s.rstrip(chars)] with the character set given as a predicate. *)
Fixpoint str_rstrip (p : ascii -> bool) (s : string) : string :=
  match s with
  | EmptyString => EmptyString
  | String a s' =>
      let r := str_rstrip p s' in
      if is_empty r && p a then EmptyString else String a r
  end.

End PyStr.

Import PyStr.

(** ** [urllib.parse.urlparse]

    The standard library's parser, as in CPython 3.12: [urlsplit] followed by
    the split of the parameters of the last path segment.  The address check
    of a bracketed host ([_check_bracketed_netloc]) and the NFKC check of a
    non-ASCII host ([_checknetloc]) are outside this model; only the
    balance of the brackets is checked. *)

Module UrlParse.

Record ParseResult : Type := mkParseResult {
  scheme : string;
  netloc : string;
  path : string;
  params : string;
  query : string;
  fragment : string
}.

Definition uses_params : list string :=
  [""; "ftp"; "hdl"; "prospero"; "http"; "imap"; "https"; "shttp"; "rtsp";
   "rtspu"; "sip"; "sips"; "mms"; "sftp"; "tel"].

(** [scheme_chars]: letters, digits and "+-.". *)
Definition scheme_char (c : ascii) : bool :=
  is_alpha c || is_digit c
  || Ascii.eqb c "+" || Ascii.eqb c "-" || Ascii.eqb c ".".

(** [_WHATWG_C0_CONTROL_OR_SPACE]: the characters up to the space. *)
Definition c0_control_or_space (c : ascii) : bool := (code c <=? 32)%N.

(** [_UNSAFE_URL_BYTES_TO_REMOVE]: tab, carriage return, newline. *)
Definition unsafe_url_byte (c : ascii) : bool :=
  (code c =? 9)%N || (code c =? 13)%N || (code c =? 10)%N.

Definition netloc_delim (c : ascii) : bool :=
  Ascii.eqb c "/" || Ascii.eqb c "?" || Ascii.eqb c "#".

(** [_splitnetloc url 2]: the text after the two slashes up to the first
    of "/", "?", "#", and what follows. *)
Definition _splitnetloc (url : string) : string * string :=
  str_break netloc_delim (str_drop 2 url).

(** The scheme step of [urlsplit]: [(scheme, rest)]. *)
Definition split_scheme (url : string) : string * string :=
  match str_find ":" url, url with
  | Some (S i), String c0 _ =>
      if is_alpha c0 && str_forall scheme_char (str_take (S i) url)
      then (str_lower (str_take (S i) url), str_drop (S (S i)) url)
      else (EmptyString, url)
  | _, _ => (EmptyString, url)
  end.

(** [url.split(c, 1)] when [c in url], else [(url, "")]. *)
Definition split_once (c : ascii) (url : string) : string * string :=
  match str_find c url with
  | Some i => (str_take i url, str_drop (S i) url)
  | None => (url, EmptyString)
  end.

(** The first steps of [urlsplit]: leading control characters and spaces
    are stripped, then tabs and line breaks are removed everywhere. *)
Definition strip_unsafe (url : string) : string :=
  str_remove unsafe_url_byte (str_lstrip c0_control_or_space url).

Definition urlsplit (url : string) : result (string * string * string * string * string) :=
  let url := strip_unsafe url in
  let '(scheme, url) := split_scheme url in
  let '(netloc, url) :=
    if str_startswith "//" url then _splitnetloc url else (EmptyString, url) in
  if (str_in "[" netloc && negb (str_in "]" netloc))
     || (str_in "]" netloc && negb (str_in "[" netloc))
  then Raise ValueError
  else
    let '(url, fragment) := split_once "#" url in
    let '(url, query) := split_once "?" url in
    Ok (scheme, netloc, url, query, fragment).

Definition _splitparams (url : string) : string * string :=
  match str_rfind "/" url with
  | Some j =>
      match str_find ";" (str_drop j url) with
      | Some k => (str_take (j + k) url, str_drop (S (j + k)) url)
      | None => (url, EmptyString)
      end
  | None =>
      match str_find ";" url with
      | Some i => (str_take i url, str_drop (S i) url)
      | None => (str_take (String.length url - 1) url, url)
      end
  end.

Definition urlparse (url : string) : result ParseResult :=
  match urlsplit url with
  | Raise e => Raise e
  | Ok (scheme, netloc, url, query, fragment) =>
      let '(url, params) :=
        if bool_decide (scheme ∈ uses_params) && str_in ";" url
        then _splitparams url
        else (url, EmptyString) in
      Ok (mkParseResult scheme netloc url params query fragment)
  end.

End UrlParse.

Import UrlParse.

(** ** [int(s)] on a decimal literal

    Python's [int] applied to a [str], as in CPython 3.11 and later:
    whitespace is stripped at both ends, one sign is allowed, single
    underscores may separate digits, and a literal of more than
    [int_max_str_digits] digits is refused.  Every refusal is a
    [ValueError]. *)

Module PyInt.

(** The blanks [int] strips: tab, line feed, vertical tab, form feed,
    carriage return and space, and the two blanks of Latin-1 above 127, the
    next-line control (133) and the no-break space (160).  The separators 28
    to 31 are blanks for [str.isspace] but not here. *)
Definition py_space (c : ascii) : bool :=
  ((9 <=? code c)%N && (code c <=? 13)%N)
  || (code c =? 32)%N || (code c =? 133)%N || (code c =? 160)%N.

Definition digit_value (c : ascii) : Z := Z.of_N (code c) - 48.

Fixpoint parse_digits (acc : Z) (after_digit : bool) (s : string) : option Z :=
  match s with
  | EmptyString => if after_digit then Some acc else None
  | String c s' =>
      if is_digit c then parse_digits (acc * 10 + digit_value c) true s'
      else if Ascii.eqb c "_" && after_digit then parse_digits acc false s'
      else None
  end.

(** [sys.get_int_max_str_digits()], by default. *)
Definition int_max_str_digits : N := 4300.

(** The digits of a literal, leading zeros included, underscores not. *)
Fixpoint count_digits (s : string) : N :=
  match s with
  | EmptyString => 0
  | String c s' => ((if is_digit c then 1 else 0) + count_digits s')%N
  end.

Definition py_int (s : string) : result Z :=
  let s := str_rstrip py_space (str_lstrip py_space s) in
  let r :=
    match s with
    | String "-" s' => option_map Z.opp (parse_digits 0 false s')
    | String "+" s' => parse_digits 0 false s'
    | _ => parse_digits 0 false s
    end in
  match r with
  | Some z =>
      if (int_max_str_digits <? count_digits s)%N then Raise ValueError else Ok z
  | None => Raise ValueError
  end.

End PyInt.

Import PyInt.

(** ** [os.path] and the file system

    A file system maps a path string to a node.  Path strings are not
    normalised: two different strings name two different nodes, and there
    are no links, permissions or quotas.  The root and the current directory
    always exist.  This is how a real file system answers as long as every
    path is written in one way: a leading slash or none throughout, then
    names other than "." and ".." with single slashes between them
    ([plain_path] and [plain_disk] below).  A statement that depends on which
    strings name the same file says so in its hypotheses.  A creation of
    directories that fails is taken to leave the file system as it was. *)

Module Os.

Inductive node : Type :=
  | File (content : list Byte.byte)
  | Dir.

Abbreviation filesystem := (gmap string node).

Definition sep : string := "/".

Definition is_slash (c : ascii) : bool := Ascii.eqb c "/".

(** [posixpath.join(a, b)]. *)
Definition path_join (a b : string) : string :=
  if str_startswith sep b then b
  else if is_empty a || str_endswith_char "/" a then a +:+ b
  else a +:+ sep +:+ b.

(** [posixpath.dirname(p)]. *)
Definition dirname (p : string) : string :=
  match str_rfind "/" p with
  | Some i =>
      let head := str_take (S i) p in
      if negb (str_forall is_slash head) then str_rstrip is_slash head else head
  | None => EmptyString
  end.

Definition isfile (fs : filesystem) (p : string) : bool :=
  match fs !! p with Some (File _) => true | _ => false end.

Definition isdir (fs : filesystem) (p : string) : bool :=
  match fs !! p with Some Dir => true | _ => false end.

(** [os.path.getsize(p)].  The size a directory reports is specific to the
    platform and is taken to be zero here. *)
Definition getsize (fs : filesystem) (p : string) : result Z :=
  match fs !! p with
  | Some (File content) => Ok (Z.of_nat (length content))
  | Some Dir => Ok 0%Z
  | None => Raise FileNotFoundError
  end.

(** The proper prefixes of a path that name its ancestors: the text before
    every run of slashes, the root apart, outermost first. *)
Fixpoint ancestors_from (seen : string) (after_slash : bool) (s : string) : list string :=
  match s with
  | EmptyString => []
  | String c s' =>
      if is_slash c
      then (if after_slash || is_empty seen then [] else [seen])
           ++ ancestors_from (seen +:+ String c EmptyString) true s'
      else ancestors_from (seen +:+ String c EmptyString) false s'
  end.

Definition ancestors (p : string) : list string := ancestors_from EmptyString false p.

(** Creation of the intermediate directories, outermost first; an
    intermediate name that is a regular file stops it. *)
Fixpoint make_intermediate (ds : list string) (fs : filesystem) : result filesystem :=
  match ds with
  | [] => Ok fs
  | d :: ds' =>
      match fs !! d with
      | Some (File _) => Raise NotADirectoryError
      | Some Dir => make_intermediate ds' fs
      | None => make_intermediate ds' (<[d := Dir]> fs)
      end
  end.

(** [os.makedirs(name)] with [exist_ok=False]. *)
Definition makedirs (name : string) (fs : filesystem) : result filesystem :=
  if is_empty name then Raise FileNotFoundError
  else
    match make_intermediate (ancestors name) fs with
    | Raise e => Raise e
    | Ok fs1 =>
        match fs1 !! name with
        | Some _ => Raise FileExistsError
        | None => Ok (<[name := Dir]> fs1)
        end
    end.

(** [open(filename, 'wb')]: an existing file is truncated, a missing one is
    created in its directory. *)
Definition open_wb (filename : string) (fs : filesystem) : result filesystem :=
  match fs !! filename with
  | Some (File _) => Ok (<[filename := File []]> fs)
  | Some Dir => Raise IsADirectoryError
  | None =>
      if is_empty filename then Raise FileNotFoundError
      else if str_endswith_char "/" filename then Raise IsADirectoryError
      else
        let parent := dirname filename in
        if is_empty parent || str_forall is_slash parent || isdir fs parent
        then Ok (<[filename := File []]> fs)
        else if isfile fs parent then Raise NotADirectoryError
        else Raise FileNotFoundError
  end.

(** [fd.write(chunk)] on a file opened for writing. *)
Definition fd_write (filename : string) (chunk : list Byte.byte) (fs : filesystem) : filesystem :=
  match fs !! filename with
  | Some (File content) => <[filename := File (content ++ chunk)]> fs
  | _ => fs
  end.

End Os.

Import Os.

(** ** HTTP

    What the retrying session answers: a response, or [RequestException]
    once its retries are exhausted.  A response of [get] without
    [stream=True] holds its whole body. *)

Module Http.

Record head_response : Type := mkHead {
  content_length_header : option string
}.

Record get_response : Type := mkGet {
  status_code : Z;
  content : list Byte.byte
}.

Record network : Type := mkNetwork {
  http_head : string -> result head_response;
  http_get : string -> result get_response
}.

Inductive request : Type :=
  | HEAD (uri : string)
  | GET (uri : string).

(** [resp.iter_content(chunk_size)]: the body cut into pieces of
    [chunk_size] bytes, the last one possibly shorter. *)
Fixpoint iter_content_from (chunk_size room : N) (cur : list Byte.byte)
    (body : list Byte.byte) : list (list Byte.byte) :=
  match body with
  | [] => match cur with [] => [] | _ => [rev cur] end
  | b :: body' =>
      if (room =? 0)%N
      then rev cur :: iter_content_from chunk_size (chunk_size - 1) [b] body'
      else iter_content_from chunk_size (room - 1) (b :: cur) body'
  end.

Definition iter_content (chunk_size : N) (resp : get_response) : list (list Byte.byte) :=
  iter_content_from chunk_size chunk_size [] (content resp).

End Http.

Import Http.

(** ** [collections.OrderedDict] with string keys and values *)

Module OrderedDict.

Abbreviation odict := (list (string * string)).

Fixpoint get (d : odict) (k : string) : option string :=
  match d with
  | [] => None
  | (k', v) :: d' => if String.eqb k' k then Some v else get d' k
  end.

(** [d[k] = v]: the value is replaced where the key stands, a new key goes
    to the end. *)
Fixpoint setitem (d : odict) (k v : string) : odict :=
  match d with
  | [] => [(k, v)]
  | (k', v') :: d' =>
      if String.eqb k' k then (k', v) :: d' else (k', v') :: setitem d' k v
  end.

End OrderedDict.

Import OrderedDict.

(** ** The state of the world and the monad of the methods

    A method is a function of the world: the objects on the heap (the
    OrderedDicts), the file system, the requests sent so far and the records
    passed to [logging].  A raised exception keeps the world as it was when
    it was raised.  Standard output and the clock are not part of the
    model. *)

Inductive log_record : Type :=
  | LogInfo (msg : string) (args : list string)
  | LogWarning (msg : string) (args : list string)
  | LogException (e : exn).

Record world : Type := mkWorld {
  heap : gmap nat odict;
  fs : filesystem;
  net_log : list request;
  log_records : list log_record
}.

Definition M (A : Type) : Type := world -> result A * world.

Definition ret {A} (a : A) : M A := fun w => (Ok a, w).

Definition raise {A} (e : exn) : M A := fun w => (Raise e, w).

Definition bind {A B} (m : M A) (k : A -> M B) : M B :=
  fun w =>
    match m w with
    | (Ok a, w') => k a w'
    | (Raise e, w') => (Raise e, w')
    end.

Notation "x <- c1 ;; c2" := (bind c1 (fun x => c2))
  (at level 100, c1 at next level, right associativity).
Notation "c1 ;; c2" := (bind c1 (fun _ => c2))
  (at level 100, right associativity).

Definition lift {A} (r : result A) : M A := fun w => (r, w).

Definition logging (r : log_record) : M unit :=
  fun w => (Ok tt, mkWorld (heap w) (fs w) (net_log w) (log_records w ++ [r])).

Definition set_fs (fs' : filesystem) : M unit :=
  fun w => (Ok tt, mkWorld (heap w) fs' (net_log w) (log_records w)).

Definition set_heap (h : gmap nat odict) : M unit :=
  fun w => (Ok tt, mkWorld h (fs w) (net_log w) (log_records w)).

(** A request goes out, whatever its outcome. *)
Definition send {A} (rq : request) (answer : result A) : M A :=
  fun w => (answer, mkWorld (heap w) (fs w) (net_log w ++ [rq]) (log_records w)).

Definition os_path_isfile (p : string) : M bool := fun w => (Ok (isfile (fs w) p), w).
Definition os_path_isdir (p : string) : M bool := fun w => (Ok (isdir (fs w) p), w).
Definition os_path_getsize (p : string) : M Z := fun w => (getsize (fs w) p, w).

Definition os_makedirs (name : string) : M unit :=
  fun w =>
    match makedirs name (fs w) with
    | Ok fs' => set_fs fs' w
    | Raise e => (Raise e, w)
    end.

Definition open_for_writing (filename : string) : M unit :=
  fun w =>
    match open_wb filename (fs w) with
    | Ok fs' => set_fs fs' w
    | Raise e => (Raise e, w)
    end.

Definition write (filename : string) (chunk : list Byte.byte) : M unit :=
  fun w => set_fs (fd_write filename chunk (fs w)) w.

Fixpoint for_each {A} (l : list A) (body : A -> M unit) : M unit :=
  match l with
  | [] => ret tt
  | x :: l' => body x ;; for_each l' body
  end.

(** ** class Downloader *)

Record Downloader : Type := mkDownloader {
  _download_dir : string;
  _downloaded_files_by_uri : nat;
  _nprocesses : Z
}.

(** The dictionary an object reference stands for. *)
Definition deref (l : nat) (w : world) : odict := default [] (heap w !! l).

Definition read_dict (l : nat) : M odict := fun w => (Ok (deref l w), w).

Definition update_dict (l : nat) (f : odict -> odict) : M unit :=
  fun w => set_heap (<[l := f (deref l w)]> (heap w)) w.

(** A new object on the heap: [OrderedDict()] and [d.copy()]. *)
Definition alloc (d : odict) : M nat :=
  fun w =>
    let l := fresh (dom (heap w)) in
    (Ok l, mkWorld (<[l := d]> (heap w)) (fs w) (net_log w) (log_records w)).

Definition __init__ (download_dir : string) (nprocesses : Z) : M Downloader :=
  l <- alloc [] ;;
  ret (mkDownloader download_dir l nprocesses).

Definition download_dir (self : Downloader) : M string := ret (_download_dir self).

Definition nprocesses (self : Downloader) : M Z := ret (_nprocesses self).

Definition downloaded_files_by_url (self : Downloader) : M nat :=
  d <- read_dict (_downloaded_files_by_uri self) ;;
  alloc d.

Section WithSlugify.

(** [slugify.slugify text separator], from the slugify package. *)
Variable slugify : string -> string -> string.

Definition filter_filename_part (text char_to_replace : string) : string :=
  str_join "." (map (fun s => slugify s char_to_replace) (str_split "." text)).

(** The list the source builds in [rel_filename_parts]. *)
Definition rel_filename_parts (url_parts : ParseResult) : list string :=
  [netloc url_parts]
  ++ List.filter (fun i => negb (is_empty i)) (tail (str_split "/" (path url_parts))).

Definition uri_to_filename (self : Downloader) (absolute_uri : string) : M string :=
  url_parts <- lift (urlparse absolute_uri) ;;
  let filtered_parts :=
    map (fun p => filter_filename_part p "_") (rel_filename_parts url_parts) in
  let rel_filename := str_join sep filtered_parts in
  let filename := path_join (_download_dir self) rel_filename in
  ret filename.

Definition url_and_file_size_diff (session : network) (self : Downloader)
    (uri filename : string) : M (option Z) :=
  resp <- send (HEAD uri) (http_head session uri) ;;
  match content_length_header resp with
  | None =>
      logging (LogWarning "No 'Content-Length' header for %s" [uri]) ;;
      ret None
  | Some header_size_str =>
      uri_size <- lift (py_int header_size_str) ;;
      file_size <- os_path_getsize filename ;;
      ret (Some (uri_size - file_size)%Z)
  end.

(** The [try] statement around the GET: the local [resp] is bound only
    when the request returned. *)
Definition try_get (session : network) (uri : string) : M (option get_response) :=
  fun w =>
    match send (GET uri) (http_get session uri) w with
    | (Ok resp, w') => (Ok (Some resp), w')
    | (Raise RequestException, w') =>
        (logging (LogException RequestException) ;; ret None) w'
    | (Raise e, w') => (Raise e, w')
    end.

Definition _retrieve_uri_to_file (session : network) (self : Downloader)
    (uri filename : string) : M unit :=
  logging (LogInfo "Downloading %s to %s" [uri; filename]) ;;
  resp <- try_get session uri ;;
  open_for_writing filename ;;
  match resp with
  | None => raise UnboundLocalError
  | Some resp =>
      for_each (iter_content (2 ^ 20) resp) (fun chunk => write filename chunk)
  end.

Definition download_one_file (session : network) (self : Downloader)
    (absolute_uri : string) : M string :=
  filename <- uri_to_filename self absolute_uri ;;
  record <- read_dict (_downloaded_files_by_uri self) ;;
  if bool_decide (Some filename = OrderedDict.get record absolute_uri) then
    logging (LogWarning "File %s already downloaded" [filename]) ;;
    ret filename
  else
    let fetch : M string :=
      let dst_dir := dirname filename in
      exists_dir <- os_path_isdir dst_dir ;;
      (if exists_dir then ret tt else os_makedirs dst_dir) ;;
      _retrieve_uri_to_file session self absolute_uri filename ;;
      update_dict (_downloaded_files_by_uri self)
        (fun d => setitem d absolute_uri filename) ;;
      logging (LogInfo "Downloaded %s -> %s" [absolute_uri; filename]) ;;
      ret filename in
    exists_file <- os_path_isfile filename ;;
    if exists_file then
      size_diff <- url_and_file_size_diff session self absolute_uri filename ;;
      if bool_decide (size_diff = Some 0%Z) then
        update_dict (_downloaded_files_by_uri self)
          (fun d => setitem d absolute_uri filename) ;;
        logging (LogWarning "File %s already exists and same size" [filename]) ;;
        ret filename
      else
        (if bool_decide (size_diff <> None)
         then logging (LogWarning "File %s and URI %s size mismatch"
                         [filename; absolute_uri])
         else ret tt) ;;
        fetch
    else fetch.

(** A session: the calls of a caller that catches what a call raises and
    goes on, each with what the network answers at that time. *)
Fixpoint run (self : Downloader) (calls : list (network * string)) (w : world) : world :=
  match calls with
  | [] => w
  | (session, uri) :: calls' =>
      run self calls' (snd (download_one_file session self uri w))
  end.

End WithSlugify.

(** The slugification of ASCII text with the default options: lower case,
    every run of characters other than letters and digits becomes one
    separator, and no separator is left at either end. *)
Module Slug.

Definition is_alnum (c : ascii) : bool := is_alpha c || is_digit c.

(** [started]: a character has been produced; [pending]: a run of other
    characters has been skipped since. *)
Fixpoint slug_from (separator : string) (started pending : bool) (s : string) : string :=
  match s with
  | EmptyString => EmptyString
  | String c s' =>
      if is_alnum c
      then (if pending then separator else EmptyString)
           +:+ String (chr_lower c) (slug_from separator true false s')
      else slug_from separator started started s'
  end.

Definition slugify (text separator : string) : string :=
  slug_from separator false false text.

End Slug.

(** ** Vocabulary of the statements *)

(** The characters that open the query and the fragment of a URI. *)
Definition query_or_fragment_mark (c : ascii) : bool :=
  Ascii.eqb c "?" || Ascii.eqb c "#".

(** A text without query and fragment: what stands before them in a URI. *)
Definition no_query_or_fragment (s : string) : Prop :=
  str_forall (fun c => negb (query_or_fragment_mark c)) s = true.

(** Nothing, or a query and/or a fragment with their marks. *)
Definition query_fragment_suffix (s : string) : Prop :=
  match s with
  | EmptyString => True
  | String c _ => query_or_fragment_mark c = true
  end.

(** A scheme as the parser accepts it: a letter, then scheme characters. *)
Definition valid_scheme (s : string) : Prop :=
  match s with
  | EmptyString => False
  | String c _ => is_alpha c = true /\ str_forall scheme_char s = true
  end.

(** A character of an authority: no delimiter, bracket, tab or line break. *)
Definition authority_char (c : ascii) : bool :=
  negb (netloc_delim c || Ascii.eqb c "[" || Ascii.eqb c "]" || unsafe_url_byte c).

(** A character of a path segment without parameters. *)
Definition segment_char (c : ascii) : bool :=
  negb (netloc_delim c || Ascii.eqb c ";" || unsafe_url_byte c).

(** A character of a path whose segments have no parameters. *)
Definition path_char (c : ascii) : bool := segment_char c || Ascii.eqb c "/".

(** The path component made of the given segments: each one after a slash. *)
Fixpoint path_of_segments (segs : list string) : string :=
  match segs with
  | [] => EmptyString
  | s :: segs' => "/" +:+ s +:+ path_of_segments segs'
  end.

(** The URI [scheme://authority/seg1/seg2/...]. *)
Definition absolute_uri_of (sch authority : string) (segs : list string) : string :=
  sch +:+ "://" +:+ authority +:+ path_of_segments segs.


Fixpoint count_char (c : ascii) (s : string) : nat :=
  match s with
  | EmptyString => 0
  | String a s' => (if Ascii.eqb a c then 1 else 0) + count_char c s'
  end.

(** What the path mapper reads of a parse: the authority and the path. *)
Definition netloc_and_path (r : result ParseResult) : result (string * string) :=
  match r with
  | Ok url_parts => Ok (netloc url_parts, path url_parts)
  | Raise e => Raise e
  end.

(** [before c s] is the text of [s] up to its first [c]. *)
Definition before (c : ascii) (s : string) : string := fst (split_once c s).

(** The steps of [download_one_file] from the creation of the directory to
    its end, which the method reaches from two places. *)
Definition fetch_steps (slugify : string -> string -> string) (session : network)
    (self : Downloader) (absolute_uri filename : string) : M string :=
  let dst_dir := dirname filename in
  exists_dir <- os_path_isdir dst_dir ;;
  (if exists_dir then ret tt else os_makedirs dst_dir) ;;
  _retrieve_uri_to_file session self absolute_uri filename ;;
  update_dict (_downloaded_files_by_uri self)
    (fun d => setitem d absolute_uri filename) ;;
  logging (LogInfo "Downloaded %s -> %s" [absolute_uri; filename]) ;;
  ret filename.

(** The record of a downloader in a world. *)
Definition record_of (self : Downloader) (w : world) : odict :=
  deref (_downloaded_files_by_uri self) w.

(** The file at [p] was found complete: nothing was written, the HEAD
    request is the only one sent, and the size of the file is the length the
    server reported. *)
Definition verified (session : network) (uri p : string) (w w' : world) : Prop :=
  fs w' = fs w
  /\ net_log w' = (net_log w ++ [HEAD uri])%list
  /\ exists header_size_str c,
       http_head session uri = Ok (mkHead (Some header_size_str))
       /\ py_int header_size_str = Ok (Z.of_nat (length c))
       /\ fs w' !! p = Some (File c).

(** The file at [p] holds the whole body of the response to the GET. *)
Definition fetched (session : network) (uri p : string) (w' : world) : Prop :=
  exists resp,
    http_get session uri = Ok resp
    /\ fs w' !! p = Some (File (content resp)).


(** An entry [uri -> p] of the record after [calls] is justified: [p] is the
    mapped path of [uri], it names a file, and one of the calls was for
    [uri], returned [p], and left the file verified or fetched. *)
Definition entry_justified (slugify : string -> string -> string) (self : Downloader)
    (calls : list (network * string)) (w0 : world) (uri p : string) : Prop :=
  (forall w, uri_to_filename slugify self uri w = (Ok p, w))
  /\ isfile (fs (run slugify self calls w0)) p = true
  /\ exists calls1 session calls2 w2,
       calls = (calls1 ++ (session, uri) :: calls2)%list
       /\ download_one_file slugify session self uri (run slugify self calls1 w0)
          = (Ok p, w2)
       /\ (verified session uri p (run slugify self calls1 w0) w2
           \/ fetched session uri p w2).

(** *** Path strings and the files they name *)

(** A name a directory entry can have: not empty, not "." and not "..". *)
Definition proper_name (s : string) : bool :=
  negb (is_empty s) && negb (String.eqb s ".") && negb (String.eqb s "..").

Definition is_absolute (p : string) : bool := str_startswith sep p.

(** The components of a path: the texts between its slashes, after the
    leading slash of an absolute path. *)
Definition path_components (p : string) : list string :=
  str_split "/" (if is_absolute p then str_drop 1 p else p).

(** A plain path: one leading slash at most, then proper names with single
    slashes between them.  Such a path is the only plain spelling of the file
    it names. *)
Definition plain_path (p : string) : bool := forallb proper_name (path_components p).

(** A plain disk: every path on it is plain, all are absolute or all are
    relative to the current directory, and every one lies in a directory
    that is on the disk as well (or in the root, or in the current
    directory). *)
Definition plain_disk (absolute : bool) (fs : filesystem) : bool :=
  forallb
    (fun entry : string * node =>
       plain_path (fst entry)
       && Bool.eqb (is_absolute (fst entry)) absolute
       && (is_empty (dirname (fst entry))
           || str_forall is_slash (dirname (fst entry))
           || isdir fs (dirname (fst entry))))
    (map_to_list fs).

(** The names a path goes through when it is resolved where no name is a
    link: empty components and "." are skipped, ".." leaves the directory
    entered last and stays in the root.  A relative path that leaves its
    starting point through ".." has no such list. *)
Fixpoint resolve_components (absolute : bool) (entered : list string)
    (comps : list string) : option (list string) :=
  match comps with
  | [] => Some (rev entered)
  | c :: comps' =>
      if is_empty c || String.eqb c "." then resolve_components absolute entered comps'
      else if String.eqb c ".." then
        match entered with
        | [] => if absolute then resolve_components absolute [] comps' else None
        | _ :: entered' => resolve_components absolute entered' comps'
        end
      else resolve_components absolute (c :: entered) comps'
  end.

Definition resolved (p : string) : option (list string) :=
  resolve_components (is_absolute p) [] (path_components p).

(** [l] ends with [tail]. *)
Definition ends_with (l tail : list string) : bool :=
  bool_decide (drop (length l - length tail) l = tail).

(** Two path strings that may name the same file, for some current
    directory: both are absolute or both relative and they resolve to the
    same names; or one is absolute and ends, once resolved, with the names of
    the other, which is relative; or one of them is relative and leaves its
    starting point through "..".  Two equal strings always may. *)
Definition may_name_same_file (p1 p2 : string) : bool :=
  match resolved p1, resolved p2 with
  | Some l1, Some l2 =>
      if Bool.eqb (is_absolute p1) (is_absolute p2) then bool_decide (l1 = l2)
      else if is_absolute p1 then ends_with l1 l2
      else ends_with l2 l1
  | _, _ => true
  end.

(** ** Scenarios *)

Module Scenario.

Definition dl : Downloader := mkDownloader "/data" 0 4.

Definition uri_b : string := "http://example.com/a/b.m3u8".
Definition path_b : string := "/data/example.com/a/b.m3u8".

(** Two URIs that differ in their query only, and their common path. *)
Definition uri_q1 : string := "http://example.com/a?x=1".
Definition uri_q2 : string := "http://example.com/a?x=2".
Definition path_q : string := "/data/example.com/a".

Definition body_ab : list Byte.byte := [Byte.x41; Byte.x42].
Definition body_xyz : list Byte.byte := [Byte.x58; Byte.x59; Byte.x5a].

Definition nothing : world := mkWorld ∅ ∅ [] [].

(** A new downloader over an empty directory tree. *)
Definition fresh : world := mkWorld {[0%nat := []]} ∅ [] [].

(** A new downloader, the file of [uri_b] on disk with two bytes. *)
Definition on_disk_b : world :=
  mkWorld {[0%nat := []]}
    {["/data/example.com/a" := Dir; path_b := File body_ab]} [] [].

(** A new downloader, the file of [uri_q1] and [uri_q2] on disk with two
    bytes. *)
Definition on_disk_q : world :=
  mkWorld {[0%nat := []]}
    {["/data/example.com" := Dir; path_q := File body_ab]} [] [].

(** A server that tells no length and whose GET fails. *)
Definition session_down : network :=
  mkNetwork (fun _ => Ok (mkHead None)) (fun _ => Raise RequestException).

(** A server that tells no length and sends three bytes. *)
Definition session_no_length : network :=
  mkNetwork (fun _ => Ok (mkHead None)) (fun _ => Ok (mkGet 200 body_xyz)).

(** A server that reports and sends two bytes. *)
Definition session_two_bytes : network :=
  mkNetwork (fun _ => Ok (mkHead (Some "2"))) (fun _ => Ok (mkGet 200 body_ab)).

(** A server whose answer depends on the query: two bytes, reported, for
    [uri_q1]; three bytes of unreported length for any other URI. *)
Definition session_q : network :=
  mkNetwork
    (fun uri => if String.eqb uri uri_q1 then Ok (mkHead (Some "2")) else Ok (mkHead None))
    (fun uri => if String.eqb uri uri_q1 then Ok (mkGet 200 body_ab)
                else Ok (mkGet 200 body_xyz)).

(** A URI beside [uri_q1] whose file is not on disk. *)
Definition uri_c : string := "http://example.com/c.ts".
Definition path_c : string := "/data/example.com/c.ts".

(** A downloader into the current directory, named by the empty text, and
    a URI without path segments, whose file is on disk with two bytes. *)
Definition dl_here : Downloader := mkDownloader "" 0 4.
Definition uri_host : string := "http://example.com".
Definition path_host : string := "example.com".

Definition on_disk_host : world :=
  mkWorld {[0%nat := []]} {[path_host := File body_ab]} [] [].

End Scenario.

(** ** Further vocabulary *)

(** The text made of [n] dots. *)
Fixpoint dots (n : nat) : string :=
  match n with
  | O => EmptyString
  | S n' => String "." (dots n')
  end.

(** The sanitized segments of a parsed URI, as [uri_to_filename] joins
    them. *)
Definition filtered_parts (slugify : string -> string -> string)
    (url_parts : ParseResult) : list string :=
  map (fun p => filter_filename_part slugify p "_") (rel_filename_parts url_parts).

(** A character of an authority that may hold brackets. *)
Definition bracketed_authority_char (c : ascii) : bool :=
  negb (netloc_delim c || unsafe_url_byte c).

(** The keys of a dictionary, in order. *)
Definition keys (d : odict) : list string := map fst d.

(** ** More scenarios *)

Module MoreScenarios.

(** A URI whose authority is empty. *)
Definition uri_no_host : string := "http:///etc/passwd".

(** A new downloader, a directory where the file of [Scenario.uri_q1] would
    go. *)
Definition dir_in_the_way : world :=
  mkWorld {[0%nat := []]}
    {["/data/example.com" := Dir; Scenario.path_q := Dir]} [] [].

(** A new downloader over a plain disk: the directories of
    [Scenario.uri_b], from the download directory down. *)
Definition plain_dirs : world :=
  mkWorld {[0%nat := []]}
    {["/data" := Dir; "/data/example.com" := Dir; "/data/example.com/a" := Dir]} [] [].

(** The same with the file of [Scenario.uri_b], holding two bytes. *)
Definition plain_disk_b : world :=
  mkWorld {[0%nat := []]}
    {["/data" := Dir; "/data/example.com" := Dir; "/data/example.com/a" := Dir;
      Scenario.path_b := File Scenario.body_ab]} [] [].

(** A server whose Content-Length is not a number. *)
Definition session_bad_length : network :=
  mkNetwork (fun _ => Ok (mkHead (Some "abc")))
    (fun _ => Ok (mkGet 200 Scenario.body_xyz)).

(** A server whose HEAD fails. *)
Definition session_head_down : network :=
  mkNetwork (fun _ => Raise RequestException)
    (fun _ => Ok (mkGet 200 Scenario.body_xyz)).


(** A server that answers 404 with a three-byte body of unreported length. *)
Definition session_not_found : network :=
  mkNetwork (fun _ => Ok (mkHead None)) (fun _ => Ok (mkGet 404 Scenario.body_xyz)).

End MoreScenarios.

(** The URI [scheme:seg0/seg1/...], without authority. *)
Definition opaque_uri_of (sch seg0 : string) (segs : list string) : string :=
  sch +:+ ":" +:+ seg0 +:+ path_of_segments segs.

(** * Properties *)

(** ** The parser on examples *)

Example urlparse_ex1 :
  urlparse "http://example.com/a/b.m3u8?x=1#top"
  = Ok (mkParseResult "http" "example.com" "/a/b.m3u8" "" "x=1" "top").
Proof. vm_compute. reflexivity. Qed.

Example urlparse_ex2 :
  urlparse "HTTPS://user@h:80/a/b;p=1/c;q?x#f"
  = Ok (mkParseResult "https" "user@h:80" "/a/b;p=1/c" "q" "x" "f").
Proof. vm_compute. reflexivity. Qed.

Example slugify_ex : Slug.slugify "  Hello, World!! x " "_" = "hello_world_x".
Proof. reflexivity. Qed.

(** ** Strings *)

Section StringFacts.

Lemma append_cons (a : ascii) (s t : string) : String a s +:+ t = String a (s +:+ t).
Proof. reflexivity. Qed.

Lemma append_nil_l (t : string) : "" +:+ t = t.
Proof. reflexivity. Qed.

Lemma append_nil_r (s : string) : s +:+ "" = s.
Proof.
  induction s as [|a s IH]; [reflexivity |].
  rewrite append_cons. now f_equal.
Qed.

Lemma count_char_app c (a b : string) :
  count_char c (a +:+ b) = (count_char c a + count_char c b)%nat.
Proof.
  induction a as [|x a IH]; [reflexivity |].
  rewrite append_cons. simpl. rewrite IH. lia.
Qed.

Lemma str_forall_app p (a b : string) :
  str_forall p (a +:+ b) = str_forall p a && str_forall p b.
Proof.
  induction a as [|x a IH]; [reflexivity |].
  rewrite append_cons. simpl. rewrite IH. now rewrite andb_assoc.
Qed.

Lemma str_forall_impl (p q : ascii -> bool) (s : string) :
  (forall c, p c = true -> q c = true) ->
  str_forall p s = true -> str_forall q s = true.
Proof.
  intros Hpq. induction s as [|a s IH]; simpl; [reflexivity |].
  intros [Ha Hs]%andb_true_iff. rewrite (Hpq _ Ha), (IH Hs). reflexivity.
Qed.

End StringFacts.

(** ** Characters *)

Ltac by_ascii c :=
  destruct c as [[|] [|] [|] [|] [|] [|] [|] [|]];
  vm_compute; try reflexivity; try discriminate; intros; try discriminate.

Lemma alpha_not_c0 c : is_alpha c = true -> c0_control_or_space c = false.
Proof. by_ascii c. Qed.

Lemma scheme_char_not_colon c : scheme_char c = true -> Ascii.eqb c ":" = false.
Proof. by_ascii c. Qed.

Lemma scheme_char_safe c : scheme_char c = true -> negb (unsafe_url_byte c) = true.
Proof. by_ascii c. Qed.

Lemma authority_char_safe c : authority_char c = true -> negb (unsafe_url_byte c) = true.
Proof. by_ascii c. Qed.

Lemma authority_char_not_delim c : authority_char c = true -> netloc_delim c = false.
Proof. by_ascii c. Qed.

Lemma authority_char_not_open c : authority_char c = true -> Ascii.eqb c "[" = false.
Proof. by_ascii c. Qed.

Lemma authority_char_not_close c : authority_char c = true -> Ascii.eqb c "]" = false.
Proof. by_ascii c. Qed.

Lemma segment_char_not_slash c : segment_char c = true -> Ascii.eqb c "/" = false.
Proof. by_ascii c. Qed.

Lemma mark_not_c0 c : query_or_fragment_mark c = true -> c0_control_or_space c = false.
Proof. by_ascii c. Qed.

Lemma mark_safe c : query_or_fragment_mark c = true -> unsafe_url_byte c = false.
Proof. by_ascii c. Qed.

Lemma mark_not_scheme_char c : query_or_fragment_mark c = true -> scheme_char c = false.
Proof. by_ascii c. Qed.

Lemma mark_not_colon c : query_or_fragment_mark c = true -> Ascii.eqb c ":" = false.
Proof. by_ascii c. Qed.

Lemma mark_not_slash c : query_or_fragment_mark c = true -> Ascii.eqb c "/" = false.
Proof. by_ascii c. Qed.

Lemma mark_is_delim c : query_or_fragment_mark c = true -> netloc_delim c = true.
Proof. by_ascii c. Qed.

(** ** Searching, slicing and splitting *)

Section SliceFacts.

Lemma str_in_forall p c (s : string) :
  str_forall p s = true -> p c = false -> str_in c s = false.
Proof.
  intros Hs Hc. induction s as [|a s IH]; simpl in *; [reflexivity |].
  apply andb_true_iff in Hs as [Ha Hs].
  destruct (Ascii.eqb_spec a c) as [->|_]; [congruence | auto].
Qed.

Lemma str_in_excluded (q : ascii -> bool) c (s : string) :
  (forall x, q x = true -> Ascii.eqb x c = false) ->
  str_forall q s = true -> str_in c s = false.
Proof.
  intros Hq Hs. induction s as [|a s IH]; simpl in *; [reflexivity |].
  apply andb_true_iff in Hs as [Ha Hs]. rewrite (Hq _ Ha). auto.
Qed.

Lemma str_find_not_in c (s : string) : str_in c s = false -> str_find c s = None.
Proof.
  induction s as [|a s IH]; simpl; [reflexivity |].
  destruct (Ascii.eqb a c); [discriminate |].
  intros H. now rewrite (IH H).
Qed.

Lemma str_find_app c (a b : string) :
  str_in c a = false ->
  str_find c (a +:+ String c b) = Some (String.length a).
Proof.
  induction a as [|x a IH]; intros H.
  - simpl. now rewrite Ascii.eqb_refl.
  - rewrite append_cons. simpl in *.
    destruct (Ascii.eqb x c); [discriminate |]. now rewrite (IH H).
Qed.

Lemma str_find_app_l c (a b : string) i :
  str_find c a = Some i -> str_find c (a +:+ b) = Some i.
Proof.
  revert i. induction a as [|x a IH]; intros i; [discriminate |].
  rewrite append_cons. simpl.
  destruct (Ascii.eqb x c); [auto |].
  destruct (str_find c a) as [j|]; [|discriminate].
  intros [= <-]. now rewrite (IH j).
Qed.

Lemma str_find_lt c (s : string) i :
  str_find c s = Some i -> (i < String.length s)%nat.
Proof.
  revert i. induction s as [|x s IH]; intros i; simpl; [discriminate |].
  destruct (Ascii.eqb x c); [intros [= <-]; lia |].
  destruct (str_find c s) as [j|]; [|discriminate].
  intros [= <-]. specialize (IH j eq_refl). lia.
Qed.

Lemma str_take_app (a b : string) : str_take (String.length a) (a +:+ b) = a.
Proof.
  induction a as [|x a IH]; [now destruct b |].
  rewrite append_cons. simpl. now f_equal.
Qed.

Lemma str_take_app_le n (a b : string) :
  (n <= String.length a)%nat -> str_take n (a +:+ b) = str_take n a.
Proof.
  revert n. induction a as [|x a IH]; intros n Hn; simpl in Hn.
  - assert (n = 0%nat) as -> by lia. now destruct b.
  - destruct n as [|n]; [reflexivity |].
    rewrite append_cons. simpl. f_equal. apply IH. lia.
Qed.

Lemma str_drop_app_le n (a b : string) :
  (n <= String.length a)%nat -> str_drop n (a +:+ b) = str_drop n a +:+ b.
Proof.
  revert n. induction a as [|x a IH]; intros n Hn; simpl in Hn.
  - assert (n = 0%nat) as -> by lia. reflexivity.
  - destruct n as [|n]; [reflexivity |].
    rewrite append_cons. simpl. apply IH. lia.
Qed.

Lemma str_forall_drop p n (s : string) :
  str_forall p s = true -> str_forall p (str_drop n s) = true.
Proof.
  revert n. induction s as [|x s IH]; intros [|n]; simpl; try reflexivity.
  - auto.
  - intros [Hx Hs]%andb_true_iff. now apply IH.
Qed.

Lemma str_remove_id p (s : string) :
  str_forall (fun c => negb (p c)) s = true -> str_remove p s = s.
Proof.
  induction s as [|x s IH]; simpl; [reflexivity |].
  intros [Hx Hs]%andb_true_iff.
  destruct (p x); [discriminate |]. now rewrite (IH Hs).
Qed.

Lemma str_remove_app p (a b : string) :
  str_remove p (a +:+ b) = str_remove p a +:+ str_remove p b.
Proof.
  induction a as [|x a IH]; [reflexivity |].
  rewrite append_cons. simpl. destruct (p x); [exact IH |].
  rewrite append_cons. now f_equal.
Qed.

Lemma str_forall_remove p q (s : string) :
  str_forall q s = true -> str_forall q (str_remove p s) = true.
Proof.
  induction s as [|x s IH]; simpl; [reflexivity |].
  intros [Hx Hs]%andb_true_iff.
  destruct (p x); simpl; [auto | now rewrite Hx, (IH Hs)].
Qed.

Lemma str_forall_lstrip p q (s : string) :
  str_forall q s = true -> str_forall q (str_lstrip p s) = true.
Proof.
  induction s as [|x s IH]; simpl; [reflexivity |].
  intros H. destruct (p x); [|exact H].
  apply andb_true_iff in H as [_ H]. auto.
Qed.

(** Stripping stops at the first character that stays, also when it is the
    first one of what follows. *)
Lemma str_lstrip_app p (a b : string) :
  match b with EmptyString => True | String c _ => p c = false end ->
  str_lstrip p (a +:+ b) = str_lstrip p a +:+ b.
Proof.
  intros Hb. induction a as [|x a IH].
  - simpl. destruct b as [|c b]; [reflexivity |]. simpl. now rewrite Hb.
  - rewrite append_cons. simpl. destruct (p x); [exact IH |].
    now rewrite append_cons.
Qed.

Lemma str_break_none p (s : string) :
  str_forall (fun c => negb (p c)) s = true -> str_break p s = (s, "").
Proof.
  induction s as [|x s IH]; simpl; [reflexivity |].
  intros [Hx Hs]%andb_true_iff.
  destruct (p x); [discriminate |]. now rewrite (IH Hs).
Qed.

Lemma str_break_app p (a b : string) :
  match b with EmptyString => True | String c _ => p c = true end ->
  str_break p (a +:+ b) = (fst (str_break p a), snd (str_break p a) +:+ b).
Proof.
  intros Hb. induction a as [|x a IH].
  - simpl. destruct b as [|c b]; [reflexivity |]. simpl. now rewrite Hb.
  - rewrite append_cons. simpl. destruct (p x); [reflexivity |].
    rewrite IH. now destruct (str_break p a).
Qed.

Lemma str_forall_break_snd p q (s : string) :
  str_forall q s = true -> str_forall q (snd (str_break p s)) = true.
Proof.
  induction s as [|x s IH]; simpl; [reflexivity |].
  intros H. destruct (p x); [exact H |].
  apply andb_true_iff in H as [_ H]. specialize (IH H).
  now destruct (str_break p s).
Qed.

Lemma str_split_not_in c (s : string) : str_in c s = false -> str_split c s = [s].
Proof.
  induction s as [|x s IH]; simpl; [reflexivity |].
  destruct (Ascii.eqb x c); [discriminate |].
  intros H. now rewrite (IH H).
Qed.

Lemma str_split_app c (a b : string) :
  str_in c a = false ->
  str_split c (a +:+ String c b) = a :: str_split c b.
Proof.
  induction a as [|x a IH]; intros H.
  - simpl. now rewrite Ascii.eqb_refl.
  - rewrite append_cons. simpl in *.
    destruct (Ascii.eqb x c); [discriminate |]. now rewrite (IH H).
Qed.

End SliceFacts.

(** ** The parser on a URI built from its components *)

Section UrlParseFacts.

Lemma path_char_safe c : path_char c = true -> negb (unsafe_url_byte c) = true.
Proof. by_ascii c. Qed.

Lemma path_char_not_hash c : path_char c = true -> Ascii.eqb c "#" = false.
Proof. by_ascii c. Qed.

Lemma path_char_not_question c : path_char c = true -> Ascii.eqb c "?" = false.
Proof. by_ascii c. Qed.

Lemma path_char_not_semicolon c : path_char c = true -> Ascii.eqb c ";" = false.
Proof. by_ascii c. Qed.

Lemma segment_char_path_char c : segment_char c = true -> path_char c = true.
Proof. by_ascii c. Qed.

Lemma path_of_segments_chars (segs : list string) :
  Forall (fun s => str_forall segment_char s = true) segs ->
  str_forall path_char (path_of_segments segs) = true.
Proof.
  induction 1 as [|s segs Hs _ IH]; [reflexivity |].
  simpl path_of_segments. rewrite append_cons, append_nil_l.
  simpl. rewrite str_forall_app, IH, andb_true_r.
  apply (str_forall_impl segment_char); [apply segment_char_path_char | exact Hs].
Qed.

Lemma path_of_segments_head (segs : list string) :
  match path_of_segments segs with
  | EmptyString => True
  | String c _ => netloc_delim c = true
  end.
Proof. destruct segs; simpl; [exact I | reflexivity]. Qed.

Lemma str_split_segments (s : string) (segs : list string) :
  str_forall segment_char s = true ->
  Forall (fun s => str_forall segment_char s = true) segs ->
  str_split "/" (s +:+ path_of_segments segs) = s :: segs.
Proof.
  intros Hs Hsegs. revert s Hs.
  induction Hsegs as [|t segs Ht _ IH]; intros s Hs.
  - simpl. rewrite append_nil_r. apply str_split_not_in.
    now apply (str_in_excluded segment_char), Hs; apply segment_char_not_slash.
  - simpl path_of_segments. rewrite append_cons, append_nil_l.
    rewrite str_split_app, (IH t Ht); [reflexivity |].
    now apply (str_in_excluded segment_char), Hs; apply segment_char_not_slash.
Qed.

Lemma tail_split_path_of_segments (segs : list string) :
  Forall (fun s => str_forall segment_char s = true) segs ->
  tail (str_split "/" (path_of_segments segs)) = segs.
Proof.
  intros Hsegs. destruct Hsegs as [|s segs Hs Hsegs]; [reflexivity |].
  simpl path_of_segments. rewrite append_cons, append_nil_l.
  simpl. now rewrite str_split_segments.
Qed.

Lemma str_drop_past (a : string) c (b : string) :
  str_drop (S (String.length a)) (a +:+ String c b) = b.
Proof. induction a as [|x a IH]; [reflexivity | now rewrite append_cons]. Qed.

Lemma split_scheme_valid (sch rest : string) :
  valid_scheme sch ->
  split_scheme (sch +:+ String ":" rest) = (str_lower sch, rest).
Proof.
  intros Hv. destruct sch as [|c sch]; [destruct Hv |].
  destruct Hv as [Hc Hall].
  assert (Htake : str_take (S (String.length sch)) (String c sch +:+ String ":" rest)
                  = String c sch) by apply (str_take_app (String c sch)).
  assert (Hdrop : str_drop (S (S (String.length sch))) (String c sch +:+ String ":" rest)
                  = rest) by apply (str_drop_past (String c sch)).
  unfold split_scheme.
  rewrite str_find_app
    by (apply (str_in_excluded scheme_char); [apply scheme_char_not_colon | exact Hall]).
  simpl String.length. cbv iota. rewrite Htake, Hdrop, Hall.
  rewrite append_cons. now rewrite Hc.
Qed.

Lemma strip_unsafe_id c (s : string) :
  c0_control_or_space c = false ->
  str_forall (fun x => negb (unsafe_url_byte x)) (String c s) = true ->
  strip_unsafe (String c s) = String c s.
Proof.
  intros Hc Hs. unfold strip_unsafe. simpl str_lstrip. rewrite Hc.
  now apply str_remove_id.
Qed.

Lemma split_once_not_in c (s : string) : str_in c s = false -> split_once c s = (s, "").
Proof. intros H. unfold split_once. now rewrite str_find_not_in. Qed.

Lemma urlparse_absolute_uri (sch authority : string) (segs : list string) :
  valid_scheme sch ->
  str_forall authority_char authority = true ->
  Forall (fun s => str_forall segment_char s = true) segs ->
  urlparse (absolute_uri_of sch authority segs)
  = Ok (mkParseResult (str_lower sch) authority (path_of_segments segs) "" "" "").
Proof.
  intros Hsch Hauth Hsegs.
  pose proof (path_of_segments_chars segs Hsegs) as Hpath.
  unfold absolute_uri_of, urlparse, urlsplit.
  change (sch +:+ "://" +:+ authority +:+ path_of_segments segs)
    with (sch +:+ String ":" (String "/" (String "/" (authority +:+ path_of_segments segs)))).
  assert (Hid : strip_unsafe
            (sch +:+ String ":" (String "/" (String "/" (authority +:+ path_of_segments segs))))
          = sch +:+ String ":" (String "/" (String "/" (authority +:+ path_of_segments segs)))).
  { destruct sch as [|c sch]; [destruct Hsch |]. destruct Hsch as [Hc Hall].
    rewrite append_cons. apply strip_unsafe_id; [now apply alpha_not_c0 |].
    rewrite <- append_cons, str_forall_app.
    rewrite (str_forall_impl scheme_char _ _ scheme_char_safe Hall).
    simpl. rewrite str_forall_app.
    rewrite (str_forall_impl authority_char _ _ authority_char_safe Hauth).
    now rewrite (str_forall_impl path_char _ _ path_char_safe Hpath). }
  rewrite Hid, (split_scheme_valid _ _ Hsch).
  change (str_startswith "//" (String "/" (String "/" (authority +:+ path_of_segments segs))))
    with true.
  cbv iota. unfold _splitnetloc. simpl str_drop.
  rewrite str_break_app by apply path_of_segments_head.
  rewrite str_break_none
    by (apply (str_forall_impl authority_char); [|exact Hauth];
        intros c Hc; now rewrite (authority_char_not_delim c Hc)).
  simpl fst. simpl snd. rewrite append_nil_l.
  rewrite (str_in_excluded authority_char "[" authority authority_char_not_open Hauth).
  rewrite (str_in_excluded authority_char "]" authority authority_char_not_close Hauth).
  simpl orb. cbv iota.
  rewrite (split_once_not_in "#")
    by (apply (str_in_excluded path_char); [apply path_char_not_hash | exact Hpath]).
  rewrite (split_once_not_in "?")
    by (apply (str_in_excluded path_char); [apply path_char_not_question | exact Hpath]).
  rewrite (str_in_excluded path_char ";" _ path_char_not_semicolon Hpath).
  now rewrite andb_false_r.
Qed.

End UrlParseFacts.

(** ** The parser on a URI followed by a query and a fragment *)

Section QueryFragmentFacts.

Lemma before_nil c : before c "" = "".
Proof. reflexivity. Qed.

Lemma before_cons c x (s : string) :
  before c (String x s) = if Ascii.eqb x c then "" else String x (before c s).
Proof.
  unfold before, split_once. simpl.
  destruct (Ascii.eqb x c); [reflexivity |].
  now destruct (str_find c s).
Qed.

Lemma before_not_in c (s : string) : str_in c s = false -> before c s = s.
Proof. intros H. unfold before. now rewrite split_once_not_in. Qed.

Lemma before_app c (t u : string) :
  str_in c t = false -> before c (t +:+ u) = t +:+ before c u.
Proof.
  induction t as [|x t IH]; intros H; [reflexivity |].
  rewrite !append_cons, before_cons. simpl in H.
  destruct (Ascii.eqb x c); [discriminate |]. now rewrite (IH H).
Qed.

Lemma unmarked_no_hash (t : string) : no_query_or_fragment t -> str_in "#" t = false.
Proof.
  intros H. apply (str_in_forall _ "#"%char _ H). reflexivity.
Qed.

Lemma unmarked_no_question (t : string) : no_query_or_fragment t -> str_in "?" t = false.
Proof.
  intros H. apply (str_in_forall _ "?"%char _ H). reflexivity.
Qed.

(** The path is what stands before the marks. *)
Lemma path_before_marks (t s : string) :
  no_query_or_fragment t -> query_fragment_suffix s ->
  before "?" (before "#" (t +:+ s)) = t.
Proof.
  intros Ht Hs.
  pose proof (unmarked_no_hash t Ht) as Hh.
  pose proof (unmarked_no_question t Ht) as Hq.
  rewrite (before_app _ _ _ Hh).
  destruct s as [|m s].
  - rewrite before_nil, append_nil_r. now apply before_not_in.
  - rewrite before_cons. simpl in Hs. unfold query_or_fragment_mark in Hs.
    destruct (Ascii.eqb_spec m "#") as [->|Hne].
    + rewrite append_nil_r. now apply before_not_in.
    + rewrite orb_false_r in Hs. apply Ascii.eqb_eq in Hs as ->.
      rewrite (before_app _ _ _ Hq), before_cons. simpl.
      apply append_nil_r.
Qed.

Lemma suffix_head_not_c0 (s : string) :
  query_fragment_suffix s ->
  match s with EmptyString => True | String c _ => c0_control_or_space c = false end.
Proof. destruct s as [|c s]; [trivial | apply mark_not_c0]. Qed.

Lemma suffix_head_delim (s : string) :
  query_fragment_suffix s ->
  match s with EmptyString => True | String c _ => netloc_delim c = true end.
Proof. destruct s as [|c s]; [trivial | apply mark_is_delim]. Qed.

Lemma suffix_remove_unsafe (s : string) :
  query_fragment_suffix s -> query_fragment_suffix (str_remove unsafe_url_byte s).
Proof.
  destruct s as [|c s]; [trivial |]. simpl. intros H.
  now rewrite (mark_safe c H).
Qed.

Lemma strip_unsafe_app (b s : string) :
  query_fragment_suffix s ->
  strip_unsafe (b +:+ s) = strip_unsafe b +:+ str_remove unsafe_url_byte s.
Proof.
  intros Hs. unfold strip_unsafe.
  rewrite str_lstrip_app by now apply suffix_head_not_c0.
  apply str_remove_app.
Qed.

Lemma strip_unsafe_unmarked (b : string) :
  no_query_or_fragment b -> no_query_or_fragment (strip_unsafe b).
Proof.
  intros H. unfold no_query_or_fragment, strip_unsafe.
  now apply str_forall_remove, str_forall_lstrip.
Qed.

Lemma str_find_app_none c (b s : string) :
  str_find c b = None ->
  str_find c (b +:+ s) = option_map (Nat.add (String.length b)) (str_find c s).
Proof.
  induction b as [|x b IH]; intros Hb.
  - rewrite append_nil_l. now destruct (str_find c s).
  - rewrite append_cons. simpl in *.
    destruct (Ascii.eqb x c); [discriminate |].
    destruct (str_find c b); [discriminate |].
    rewrite (IH eq_refl). now destruct (str_find c s).
Qed.

Lemma str_forall_take_past p (b : string) m (s : string) n :
  p m = false -> (String.length b < n)%nat ->
  str_forall p (str_take n (b +:+ String m s)) = false.
Proof.
  intros Hm. revert n. induction b as [|x b IH]; intros n Hn; simpl in Hn.
  - destruct n as [|n]; [lia |]. simpl. now rewrite Hm.
  - destruct n as [|n]; [lia |]. rewrite append_cons. simpl.
    rewrite IH by lia. apply andb_false_r.
Qed.

Lemma split_scheme_app (b s : string) :
  query_fragment_suffix s ->
  split_scheme (b +:+ s) = (fst (split_scheme b), snd (split_scheme b) +:+ s).
Proof.
  intros Hs. unfold split_scheme.
  destruct (str_find ":" b) as [i|] eqn:Hf.
  - rewrite (str_find_app_l _ _ s _ Hf).
    pose proof (str_find_lt _ _ _ Hf) as Hlt.
    destruct i as [|i]; [reflexivity |].
    destruct b as [|c0 b]; [discriminate |].
    rewrite append_cons. rewrite <- (append_cons c0 b s).
    rewrite str_take_app_le by lia.
    rewrite str_drop_app_le by lia.
    now destruct (is_alpha c0 && str_forall scheme_char (str_take (S i) (String c0 b))).
  - cbn [fst snd].
    destruct (str_find ":" (b +:+ s)) as [n|] eqn:Hn; [|reflexivity].
    destruct n as [|n]; [reflexivity |].
    assert (Hfalse : str_forall scheme_char (str_take (S n) (b +:+ s)) = false).
    { rewrite (str_find_app_none _ _ _ Hf) in Hn.
      destruct s as [|m s]; [discriminate |].
      simpl in Hs, Hn. rewrite (mark_not_colon m Hs) in Hn.
      destruct (str_find ":" s) as [j|]; [|discriminate].
      simpl in Hn. injection Hn as Hn.
      apply str_forall_take_past; [now apply mark_not_scheme_char | lia]. }
    cbn [fst snd].
    destruct (b +:+ s) as [|c0 u]; [discriminate Hn |].
    now rewrite Hfalse, andb_false_r.
Qed.

End QueryFragmentFacts.

Section SuffixInvariance.

Lemma split_scheme_unmarked (b : string) :
  no_query_or_fragment b -> no_query_or_fragment (snd (split_scheme b)).
Proof.
  intros H. unfold split_scheme.
  destruct (str_find ":" b) as [[|i]|]; try exact H.
  destruct b as [|c0 b]; [exact H |].
  destruct (is_alpha c0 && _); [|exact H].
  now apply str_forall_drop.
Qed.

Lemma startswith_slashes_app (r s : string) :
  query_fragment_suffix s ->
  str_startswith "//" (r +:+ s) = str_startswith "//" r.
Proof.
  intros Hs. destruct s as [|m s]; [now rewrite append_nil_r |].
  simpl in Hs. pose proof (mark_not_slash m Hs) as Hm.
  destruct r as [|x [|y r]].
  - rewrite append_nil_l. unfold str_startswith. simpl. now rewrite Hm.
  - rewrite append_cons, append_nil_l. unfold str_startswith. simpl.
    rewrite Hm. now destruct (Ascii.eqb x "/").
  - now rewrite !append_cons.
Qed.

Lemma splitnetloc_app (r s : string) :
  str_startswith "//" r = true -> query_fragment_suffix s ->
  _splitnetloc (r +:+ s) = (fst (_splitnetloc r), snd (_splitnetloc r) +:+ s).
Proof.
  intros Hr Hs. unfold _splitnetloc.
  destruct r as [|x [|y r]].
  - discriminate Hr.
  - unfold str_startswith in Hr. simpl in Hr.
    destruct (Ascii.eqb x "/"); discriminate Hr.
  - rewrite !append_cons. simpl str_drop.
    apply str_break_app. now apply suffix_head_delim.
Qed.

Lemma splitnetloc_unmarked (r : string) :
  no_query_or_fragment r -> no_query_or_fragment (snd (_splitnetloc r)).
Proof.
  intros H. unfold _splitnetloc.
  now apply str_forall_break_snd, str_forall_drop.
Qed.

(** The last steps of [urlparse], from the text left after the authority:
    the authority and the path do not depend on what follows the marks. *)
Lemma parse_tail_suffix (sc n t s : string) :
  no_query_or_fragment t -> query_fragment_suffix s ->
  netloc_and_path
    (let '(url, fragment) := split_once "#" (t +:+ s) in
     let '(url, query) := split_once "?" url in
     let '(url, params) :=
       if bool_decide (sc ∈ uses_params) && str_in ";" url
       then _splitparams url else (url, EmptyString) in
     Ok (mkParseResult sc n url params query fragment))
  = netloc_and_path
      (let '(url, params) :=
         if bool_decide (sc ∈ uses_params) && str_in ";" t
         then _splitparams t else (t, EmptyString) in
       Ok (mkParseResult sc n url params "" "")).
Proof.
  intros Ht Hs.
  pose proof (path_before_marks t s Ht Hs) as Hp. unfold before in Hp.
  destruct (split_once "#" (t +:+ s)) as [u f]. simpl in Hp.
  destruct (split_once "?" u) as [p q]. simpl in Hp. subst p.
  now destruct (if bool_decide (sc ∈ uses_params) && str_in ";" t
                then _splitparams t else (t, EmptyString)).
Qed.

Lemma parse_tail_plain (sc n t : string) :
  no_query_or_fragment t ->
  (let '(url, fragment) := split_once "#" t in
   let '(url, query) := split_once "?" url in
   let '(url, params) :=
     if bool_decide (sc ∈ uses_params) && str_in ";" url
     then _splitparams url else (url, EmptyString) in
   Ok (mkParseResult sc n url params query fragment))
  = (let '(url, params) :=
       if bool_decide (sc ∈ uses_params) && str_in ";" t
       then _splitparams t else (t, EmptyString) in
     Ok (mkParseResult sc n url params "" "")).
Proof.
  intros Ht.
  rewrite (split_once_not_in "#" t (unmarked_no_hash t Ht)).
  now rewrite (split_once_not_in "?" t (unmarked_no_question t Ht)).
Qed.

Lemma urlparse_unfold (url : string) :
  urlparse url =
  let '(sc, r) := split_scheme (strip_unsafe url) in
  let '(n, t) := if str_startswith "//" r then _splitnetloc r else (EmptyString, r) in
  if (str_in "[" n && negb (str_in "]" n)) || (str_in "]" n && negb (str_in "[" n))
  then Raise ValueError
  else
    let '(url, fragment) := split_once "#" t in
    let '(url, query) := split_once "?" url in
    let '(url, params) :=
      if bool_decide (sc ∈ uses_params) && str_in ";" url
      then _splitparams url else (url, EmptyString) in
    Ok (mkParseResult sc n url params query fragment).
Proof.
  unfold urlparse, urlsplit.
  destruct (split_scheme (strip_unsafe url)) as [sc r].
  destruct (if str_startswith "//" r then _splitnetloc r else (EmptyString, r)) as [n t].
  destruct (_ || _); [reflexivity |].
  destruct (split_once "#" t) as [u f].
  now destruct (split_once "?" u) as [p q].
Qed.

Lemma urlparse_suffix (b s : string) :
  no_query_or_fragment b -> query_fragment_suffix s ->
  netloc_and_path (urlparse (b +:+ s)) = netloc_and_path (urlparse b).
Proof.
  intros Hb Hs.
  pose proof (suffix_remove_unsafe s Hs) as Hs'.
  pose proof (strip_unsafe_unmarked b Hb) as Hb'.
  rewrite !urlparse_unfold.
  rewrite (strip_unsafe_app b s Hs), (split_scheme_app _ _ Hs').
  pose proof (split_scheme_unmarked _ Hb') as Hr.
  destruct (split_scheme (strip_unsafe b)) as [sc r]. cbn [fst snd] in *.
  rewrite (startswith_slashes_app r _ Hs').
  destruct (str_startswith "//" r) eqn:Hstart.
  - rewrite (splitnetloc_app r _ Hstart Hs').
    pose proof (splitnetloc_unmarked r Hr) as Ht.
    destruct (_splitnetloc r) as [n t]. cbn [fst snd] in *.
    destruct (_ || _); [reflexivity |].
    rewrite (parse_tail_suffix sc n t _ Ht Hs').
    now rewrite (parse_tail_plain sc n t Ht).
  - destruct (_ || _); [reflexivity |].
    rewrite (parse_tail_suffix sc "" r _ Hr Hs').
    now rewrite (parse_tail_plain sc "" r Hr).
Qed.

End SuffixInvariance.

(** ** The path mapper *)

Section PathMapper.

Variable slugify : string -> string -> string.

Lemma uri_to_filename_by_netloc_path (self : Downloader) (u1 u2 : string) (w : world) :
  netloc_and_path (urlparse u1) = netloc_and_path (urlparse u2) ->
  uri_to_filename slugify self u1 w = uri_to_filename slugify self u2 w.
Proof.
  unfold uri_to_filename, bind, lift, ret, rel_filename_parts.
  destruct (urlparse u1) as [p1|e1], (urlparse u2) as [p2|e2]; simpl;
    intros H; try discriminate H.
  - injection H as Hn Hp. now rewrite Hn, Hp.
  - now injection H as ->.
Qed.

Lemma uri_to_filename_world (self : Downloader) (uri : string) (w : world) :
  snd (uri_to_filename slugify self uri w) = w.
Proof.
  unfold uri_to_filename, bind, lift, ret.
  now destruct (urlparse uri).
Qed.

Lemma uri_to_filename_any_world (self1 self2 : Downloader) (uri : string) (w1 w2 : world) :
  _download_dir self1 = _download_dir self2 ->
  fst (uri_to_filename slugify self1 uri w1) = fst (uri_to_filename slugify self2 uri w2).
Proof.
  intros Hdir. unfold uri_to_filename, bind, lift, ret.
  destruct (urlparse uri); simpl; [now rewrite Hdir | reflexivity].
Qed.

Lemma path_join_count c (a b : string) :
  (count_char c b <= count_char c (path_join a b))%nat.
Proof.
  unfold path_join.
  destruct (str_startswith sep b); [lia |].
  destruct (is_empty a || str_endswith_char "/" a);
    rewrite ?count_char_app; lia.
Qed.

Lemma example_path_parts (self : Downloader) (w : world) :
  uri_to_filename slugify self "http://example.com/a/b.m3u8" w
  = (Ok (path_join (_download_dir self)
           ((slugify "example" "_" +:+ "." +:+ slugify "com" "_")
            +:+ "/" +:+ slugify "a" "_"
            +:+ "/" +:+ (slugify "b" "_" +:+ "." +:+ slugify "m3u8" "_"))), w).
Proof.
  unfold uri_to_filename, bind, lift, ret.
  replace (urlparse "http://example.com/a/b.m3u8")
    with (Ok (mkParseResult "http" "example.com" "/a/b.m3u8" "" "" ""))
    by (vm_compute; reflexivity).
  reflexivity.
Qed.

End PathMapper.

(** C3, as the specification states it: no slugification at all makes the
    mapped path of "http://example.com/a/b.m3u8" under "/data" equal to
    "/data/example_com/a/b.m3u8".  The host is sanitized like every other
    segment, one dot-delimited part at a time, so its dot stays. *)
Lemma example_path_not_as_specified :
  ~ (exists (slugify : string -> string -> string) (l : nat) (n : Z) (w : world),
       fst (uri_to_filename slugify (mkDownloader "/data" l n)
              "http://example.com/a/b.m3u8" w)
       = Ok "/data/example_com/a/b.m3u8").
Proof.
  intros (slugify & l & n & w & H).
  rewrite example_path_parts in H. simpl in H.
  injection H as H.
  apply (f_equal (count_char ".")) in H.
  pose proof (path_join_count "." "/data"
    ((slugify "example" "_" +:+ "." +:+ slugify "com" "_")
     +:+ "/" +:+ slugify "a" "_"
     +:+ "/" +:+ (slugify "b" "_" +:+ "." +:+ slugify "m3u8" "_"))) as Hle.
  rewrite H in Hle. rewrite !count_char_app in Hle.
  change (count_char "." "/data/example_com/a/b.m3u8") with 1%nat in Hle.
  change (count_char "." ".") with 1%nat in Hle.
  lia.
Qed.

(** C3, amended: the mapped path of "http://example.com/a/b.m3u8" under
    "/data" is "/data/example.com/a/b.m3u8": whatever the slugification, the
    parts of the host and of the file name are joined again with their dots,
    and the slugification of ASCII text leaves these five words as they
    are. *)
Theorem uri_to_filename_example :
  (forall (slugify : string -> string -> string) (l : nat) (n : Z) (w : world),
     uri_to_filename slugify (mkDownloader "/data" l n) "http://example.com/a/b.m3u8" w
     = (Ok (path_join "/data"
              ((slugify "example" "_" +:+ "." +:+ slugify "com" "_")
               +:+ "/" +:+ slugify "a" "_"
               +:+ "/" +:+ (slugify "b" "_" +:+ "." +:+ slugify "m3u8" "_"))), w))
  /\ (forall (l : nat) (n : Z) (w : world),
        uri_to_filename Slug.slugify (mkDownloader "/data" l n)
          "http://example.com/a/b.m3u8" w
        = (Ok "/data/example.com/a/b.m3u8", w)).
Proof.
  split.
  - intros slugify l n w. apply example_path_parts.
  - intros l n w. rewrite example_path_parts. reflexivity.
Qed.



(** C8: the mapped path depends on the URI and on the configured download
    directory only, and the evaluation leaves the world (objects, files,
    requests sent, log) as it was. *)
Theorem uri_to_filename_pure (slugify : string -> string -> string)
    (self1 self2 : Downloader) (uri : string) (w1 w2 : world) :
  _download_dir self1 = _download_dir self2 ->
  fst (uri_to_filename slugify self1 uri w1) = fst (uri_to_filename slugify self2 uri w2)
  /\ snd (uri_to_filename slugify self1 uri w1) = w1
  /\ snd (uri_to_filename slugify self2 uri w2) = w2.
Proof.
  intros Hdir. split; [now apply uri_to_filename_any_world |].
  split; apply uri_to_filename_world.
Qed.

(** C10: two URIs that differ only in what follows the first "?" or "#"
    (the query string and the fragment) have the same mapped path. *)
Theorem uri_to_filename_ignores_query_and_fragment
    (slugify : string -> string -> string) (self : Downloader)
    (base suffix1 suffix2 : string) (w : world) :
  no_query_or_fragment base ->
  query_fragment_suffix suffix1 ->
  query_fragment_suffix suffix2 ->
  uri_to_filename slugify self (base +:+ suffix1) w
  = uri_to_filename slugify self (base +:+ suffix2) w.
Proof.
  intros Hb H1 H2. apply uri_to_filename_by_netloc_path.
  now rewrite (urlparse_suffix base suffix1 Hb H1), (urlparse_suffix base suffix2 Hb H2).
Qed.

(** ** The file system *)

Section FileSystemFacts.

Lemma isfile_lookup (fs : filesystem) (p : string) :
  isfile fs p = true <-> exists c, fs !! p = Some (File c).
Proof.
  unfold isfile. destruct (fs !! p) as [[c|]|]; split; intros H;
    try discriminate; try (now destruct H); eauto.
Qed.

Lemma make_intermediate_keeps (ds : list string) (fs fs' : filesystem) (p : string) c :
  make_intermediate ds fs = Ok fs' ->
  fs !! p = Some (File c) -> fs' !! p = Some (File c).
Proof.
  revert fs. induction ds as [|d ds IH]; intros fs Hm Hp; simpl in Hm.
  - now injection Hm as <-.
  - destruct (fs !! d) as [[c'|]|] eqn:Hd; [discriminate | eauto |].
    apply (IH _ Hm). rewrite lookup_insert_ne; [exact Hp | congruence].
Qed.

Lemma makedirs_keeps (name : string) (fs fs' : filesystem) (p : string) c :
  makedirs name fs = Ok fs' ->
  fs !! p = Some (File c) -> fs' !! p = Some (File c).
Proof.
  unfold makedirs. destruct (is_empty name); [discriminate |].
  destruct (make_intermediate (ancestors name) fs) as [fs1|e] eqn:Hm; [|discriminate].
  destruct (fs1 !! name) eqn:Hn; [discriminate |].
  intros [= <-] Hp. pose proof (make_intermediate_keeps _ _ _ _ _ Hm Hp) as Hp1.
  rewrite lookup_insert_ne; [exact Hp1 | congruence].
Qed.

Lemma open_wb_ok (filename : string) (fs fs' : filesystem) :
  open_wb filename fs = Ok fs' -> fs' = <[filename := File []]> fs.
Proof.
  unfold open_wb.
  destruct (fs !! filename) as [[c|]|]; [now intros [= <-] | discriminate |].
  destruct (is_empty filename); [discriminate |].
  destruct (str_endswith_char "/" filename); [discriminate |].
  destruct (is_empty (dirname filename) || str_forall is_slash (dirname filename)
            || isdir fs (dirname filename));
    [now intros [= <-] | destruct (isfile fs (dirname filename)); discriminate].
Qed.

Lemma open_wb_existing (filename : string) (fs : filesystem) c :
  fs !! filename = Some (File c) ->
  open_wb filename fs = Ok (<[filename := File []]> fs).
Proof. intros H. unfold open_wb. now rewrite H. Qed.

Lemma concat_iter_content_from (chunk_size room : N) (cur body : list Byte.byte) :
  concat (iter_content_from chunk_size room cur body) = (rev cur ++ body)%list.
Proof.
  revert room cur. induction body as [|b body IH]; intros room cur; simpl.
  - destruct cur; simpl; [reflexivity |]. now rewrite !app_nil_r.
  - destruct (room =? 0)%N; simpl; rewrite IH; simpl.
    + reflexivity.
    + now rewrite <- app_assoc.
Qed.

Lemma concat_iter_content (chunk_size : N) (resp : get_response) :
  concat (iter_content chunk_size resp) = content resp.
Proof. unfold iter_content. now rewrite concat_iter_content_from. Qed.

Lemma write_chunks (filename : string) (chunks : list (list Byte.byte)) (w : world) c :
  fs w !! filename = Some (File c) ->
  for_each chunks (fun chunk => write filename chunk) w
  = (Ok tt, mkWorld (heap w) (<[filename := File (c ++ concat chunks)]> (fs w))
              (net_log w) (log_records w)).
Proof.
  revert w c. induction chunks as [|ch chunks IH]; intros w c Hc; simpl.
  - unfold ret. rewrite app_nil_r, insert_id by exact Hc. now destruct w.
  - unfold bind, write, set_fs, fd_write. rewrite Hc.
    rewrite (IH _ (c ++ ch)%list) by (simpl; apply lookup_insert_eq).
    simpl. now rewrite insert_insert_eq, app_assoc.
Qed.

End FileSystemFacts.

(** ** The download coordinator *)

Ltac run_monad :=
  repeat (progress
    (unfold bind, ret, raise, lift, logging, send,
       os_path_isfile, os_path_isdir, os_path_getsize, os_makedirs,
       open_for_writing, read_dict, update_dict, set_fs, set_heap;
     cbn [heap fs net_log log_records fst snd])).

Section DownloadFacts.

Variable slugify : string -> string -> string.

Lemma retrieve_returns (session : network) (self : Downloader) (uri filename : string)
    (w : world) (resp : get_response) (fs2 : filesystem) :
  http_get session uri = Ok resp ->
  open_wb filename (fs w) = Ok fs2 ->
  _retrieve_uri_to_file session self uri filename w
  = (Ok tt,
     mkWorld (heap w) (<[filename := File (content resp)]> (fs w))
       (net_log w ++ [GET uri])
       (log_records w ++ [LogInfo "Downloading %s to %s" [uri; filename]])).
Proof.
  intros Hget Hopen. pose proof (open_wb_ok _ _ _ Hopen) as ->.
  unfold _retrieve_uri_to_file, try_get. run_monad.
  rewrite Hget. run_monad. rewrite Hopen.
  rewrite (write_chunks _ _ _ []) by (cbn [fs]; apply lookup_insert_eq).
  cbn [heap fs net_log log_records].
  now rewrite concat_iter_content, insert_insert_eq.
Qed.

Lemma retrieve_get_fails (session : network) (self : Downloader) (uri filename : string)
    (w : world) (fs2 : filesystem) :
  http_get session uri = Raise RequestException ->
  open_wb filename (fs w) = Ok fs2 ->
  _retrieve_uri_to_file session self uri filename w
  = (Raise UnboundLocalError,
     mkWorld (heap w) (<[filename := File []]> (fs w))
       (net_log w ++ [GET uri])
       (log_records w ++ [LogInfo "Downloading %s to %s" [uri; filename];
                          LogException RequestException])).
Proof.
  intros Hget Hopen. pose proof (open_wb_ok _ _ _ Hopen) as ->.
  unfold _retrieve_uri_to_file, try_get. run_monad.
  rewrite Hget. run_monad. rewrite Hopen.
  now rewrite <- app_assoc.
Qed.

(** Whatever happens, the retrieval leaves the heap alone, removes no file
    and sends one GET; when it returns, the file holds the whole body. *)
Lemma retrieve_spec (session : network) (self : Downloader) (uri filename : string)
    (w w' : world) (out : result unit) :
  _retrieve_uri_to_file session self uri filename w = (out, w') ->
  heap w' = heap w
  /\ (forall p, isfile (fs w) p = true -> isfile (fs w') p = true)
  /\ net_log w' = (net_log w ++ [GET uri])%list
  /\ match out with
     | Ok _ => fetched session uri filename w'
     | Raise _ => True
     end.
Proof.
  assert (Hmono : forall p, isfile (fs w) p = true ->
                    isfile (<[filename := File []]> (fs w)) p = true).
  { intros p Hp. unfold isfile.
    destruct (decide (filename = p)) as [->|Hne];
      [now rewrite lookup_insert_eq | now rewrite lookup_insert_ne]. }
  destruct (http_get session uri) as [resp|e] eqn:Hget.
  - destruct (open_wb filename (fs w)) as [fs2|e] eqn:Hopen.
    + rewrite (retrieve_returns _ _ _ _ _ _ _ Hget Hopen). intros [= <- <-].
      cbn [heap fs net_log]. repeat split.
      * intros p Hp. unfold isfile.
        destruct (decide (filename = p)) as [->|Hne];
          [now rewrite lookup_insert_eq | now rewrite lookup_insert_ne].
      * exists resp. split; [exact Hget | apply lookup_insert_eq].
    + unfold _retrieve_uri_to_file, try_get. run_monad.
      rewrite Hget. run_monad. rewrite Hopen. intros [= <- <-].
      cbn [heap fs net_log]. auto.
  - unfold _retrieve_uri_to_file, try_get. run_monad. rewrite Hget.
    destruct e; try (intros [= <- <-]; cbn [heap fs net_log]; now auto).
    run_monad.
    destruct (open_wb filename (fs w)) as [fs2|e] eqn:Hopen.
    + pose proof (open_wb_ok _ _ _ Hopen) as ->.
      intros [= <- <-]. cbn [heap fs net_log]. auto.
    + intros [= <- <-]. cbn [heap fs net_log]. auto.
Qed.

Lemma isfile_makedirs (name : string) (fs fs' : filesystem) (p : string) :
  makedirs name fs = Ok fs' -> isfile fs p = true -> isfile fs' p = true.
Proof.
  intros Hm [c Hc]%isfile_lookup. apply isfile_lookup. exists c.
  exact (makedirs_keeps _ _ _ _ _ Hm Hc).
Qed.

Lemma fetch_steps_spec (session : network) (self : Downloader) (uri filename : string)
    (w w' : world) (out : result string) :
  fetch_steps slugify session self uri filename w = (out, w') ->
  (forall p, isfile (fs w) p = true -> isfile (fs w') p = true)
  /\ match out with
     | Ok p =>
         p = filename
         /\ heap w' = <[_downloaded_files_by_uri self :=
                          setitem (record_of self w) uri filename]> (heap w)
         /\ fetched session uri filename w'
     | Raise _ => heap w' = heap w
     end.
Proof.
  unfold fetch_steps. run_monad.
  destruct (isdir (fs w) (dirname filename)) eqn:Hdir.
  - destruct (_retrieve_uri_to_file session self uri filename w) as [o w2] eqn:Hr.
    apply retrieve_spec in Hr as (Hh & Hmono & _ & Hout).
    destruct o as [[]|e]; intros [= <- <-]; cbn [heap fs]; [|now auto].
    split; [exact Hmono |]. split; [reflexivity |].
    split; [unfold record_of, deref; now rewrite Hh |].
    destruct Hout as (resp & Hget & Hfile). now exists resp.
  - destruct (makedirs (dirname filename) (fs w)) as [fs1|e] eqn:Hmk;
      [|intros [= <- <-]; now auto].
    run_monad.
    match goal with
    | |- context [_retrieve_uri_to_file session self uri filename ?w1] =>
        destruct (_retrieve_uri_to_file session self uri filename w1) as [o w2] eqn:Hr
    end.
    apply retrieve_spec in Hr as (Hh & Hmono & _ & Hout). cbn [heap fs] in *.
    assert (Hmono' : forall p, isfile (fs w) p = true -> isfile (fs w2) p = true)
      by (intros p Hp; apply Hmono; exact (isfile_makedirs _ _ _ _ Hmk Hp)).
    destruct o as [[]|e]; intros [= <- <-]; cbn [heap fs]; [|now auto].
    split; [exact Hmono' |]. split; [reflexivity |].
    split; [unfold record_of, deref; cbn [heap]; now rewrite Hh |].
    destruct Hout as (resp & Hget & Hfile). now exists resp.
Qed.

Lemma size_diff_spec (session : network) (self : Downloader) (uri filename : string)
    (w w' : world) (out : result (option Z)) :
  url_and_file_size_diff session self uri filename w = (out, w') ->
  heap w' = heap w /\ fs w' = fs w /\ net_log w' = (net_log w ++ [HEAD uri])%list
  /\ match out with
     | Ok (Some z) =>
         exists header_size_str uri_size file_size,
           http_head session uri = Ok (mkHead (Some header_size_str))
           /\ py_int header_size_str = Ok uri_size
           /\ getsize (fs w) filename = Ok file_size
           /\ z = (uri_size - file_size)%Z
     | Ok None => http_head session uri = Ok (mkHead None)
     | Raise _ => True
     end.
Proof.
  unfold url_and_file_size_diff. run_monad.
  destruct (http_head session uri) as [resp|e]; [destruct resp as [[s|]] |];
    cbn [content_length_header]; cbv beta iota; run_monad.
  - destruct (py_int s) as [z|e] eqn:Hint; cbv beta iota;
      [|intros [= <- <-]; now auto].
    destruct (getsize (fs w) filename) as [sz|e] eqn:Hsz; cbv beta iota;
      intros [= <- <-]; cbn [heap fs net_log]; [|now auto].
    repeat split. now exists s, z, sz.
  - intros [= <- <-]. cbn [heap fs net_log]. auto.
  - intros [= <- <-]. cbn [heap fs net_log]. auto.
Qed.

Lemma download_one_file_eq (session : network) (self : Downloader) (uri : string)
    (w : world) :
  download_one_file slugify session self uri w =
  match uri_to_filename slugify self uri w with
  | (Raise e, w1) => (Raise e, w1)
  | (Ok filename, w1) =>
      if bool_decide (Some filename = OrderedDict.get (record_of self w1) uri) then
        (Ok filename,
         snd (logging (LogWarning "File %s already downloaded" [filename]) w1))
      else if isfile (fs w1) filename then
        match url_and_file_size_diff session self uri filename w1 with
        | (Raise e, w2) => (Raise e, w2)
        | (Ok size_diff, w2) =>
            if bool_decide (size_diff = Some 0%Z) then
              (Ok filename,
               mkWorld (<[_downloaded_files_by_uri self :=
                            setitem (record_of self w2) uri filename]> (heap w2))
                 (fs w2) (net_log w2)
                 (log_records w2
                  ++ [LogWarning "File %s already exists and same size" [filename]]))
            else
              fetch_steps slugify session self uri filename
                (if bool_decide (size_diff <> None)
                 then snd (logging (LogWarning "File %s and URI %s size mismatch"
                                      [filename; uri]) w2)
                 else w2)
        end
      else fetch_steps slugify session self uri filename w1
  end.
Proof.
  unfold download_one_file, fetch_steps, record_of. run_monad.
  destruct (uri_to_filename slugify self uri w) as [[filename|e] w1]; [|reflexivity].
  destruct (bool_decide (Some filename = _)); [reflexivity |].
  destruct (isfile (fs w1) filename); [|reflexivity].
  destruct (url_and_file_size_diff session self uri filename w1) as [[sd|e] w2];
    [|reflexivity].
  destruct (bool_decide (sd = Some 0%Z)); [reflexivity |].
  now destruct (bool_decide (sd <> None)).
Qed.

Lemma uri_to_filename_result (self : Downloader) (uri : string) (w w1 : world)
    (out : result string) :
  uri_to_filename slugify self uri w = (out, w1) ->
  w1 = w /\ forall w2, uri_to_filename slugify self uri w2 = (out, w2).
Proof.
  intros H. pose proof (uri_to_filename_world slugify self uri w) as Hw.
  rewrite H in Hw. simpl in Hw. subst w1. split; [reflexivity |].
  intros w2.
  pose proof (uri_to_filename_any_world slugify self self uri w2 w eq_refl) as Hout.
  pose proof (uri_to_filename_world slugify self uri w2) as Hw2.
  rewrite H in Hout. simpl in Hout.
  destruct (uri_to_filename slugify self uri w2) as [o w3]. simpl in *. congruence.
Qed.

Lemma getsize_file (fs : filesystem) (p : string) c :
  fs !! p = Some (File c) -> getsize fs p = Ok (Z.of_nat (length c)).
Proof. intros H. unfold getsize. now rewrite H. Qed.

(** What a call does, by its outcome. *)
Lemma download_one_file_cases (session : network) (self : Downloader) (uri : string)
    (w w' : world) (out : result string) :
  download_one_file slugify session self uri w = (out, w') ->
  (forall p, isfile (fs w) p = true -> isfile (fs w') p = true)
  /\ match out with
     | Raise _ => heap w' = heap w
     | Ok p =>
         uri_to_filename slugify self uri w = (Ok p, w)
         /\ ((OrderedDict.get (record_of self w) uri = Some p
              /\ heap w' = heap w /\ fs w' = fs w /\ net_log w' = net_log w)
             \/ (heap w' = <[_downloaded_files_by_uri self :=
                               setitem (record_of self w) uri p]> (heap w)
                 /\ (verified session uri p w w' \/ fetched session uri p w')))
     end.
Proof.
  rewrite download_one_file_eq.
  destruct (uri_to_filename slugify self uri w) as [[filename|e] w1] eqn:Hu;
    apply uri_to_filename_result in Hu as [-> Hu];
    [|intros [= <- <-]; now auto].
  destruct (bool_decide (Some filename = _)) eqn:Hrec.
  { apply bool_decide_eq_true in Hrec. intros [= <- <-]. cbn [heap fs net_log snd logging].
    split; [auto |]. split; [first [reflexivity | apply Hu] |]. left. now auto. }
  destruct (isfile (fs w) filename) eqn:Hfile.
  2:{ intros Hf. apply fetch_steps_spec in Hf as [Hmono Hout].
      split; [exact Hmono |]. destruct out as [p|e]; [|exact Hout].
      destruct Hout as (-> & Hheap & Hfetched).
      split; [first [reflexivity | apply Hu] |]. right. split; [exact Hheap | now right]. }
  destruct (url_and_file_size_diff session self uri filename w) as [[sd|e] w2] eqn:Hsd;
    apply size_diff_spec in Hsd as (Hh & Hfs & Hnl & Hsd);
    [|intros [= <- <-]; rewrite Hfs; now auto].
  assert (Hrecord : record_of self w2 = record_of self w)
    by (unfold record_of, deref; now rewrite Hh).
  destruct (bool_decide (sd = Some 0%Z)) eqn:Hzero.
  - apply bool_decide_eq_true in Hzero as ->. intros [= <- <-]. cbn [heap fs net_log].
    rewrite Hfs. split; [auto |]. split; [first [reflexivity | apply Hu] |]. right.
    rewrite Hrecord, Hh. split; [reflexivity |]. left.
    unfold verified. cbn [heap fs net_log]. repeat split; [assumption.. |].
    destruct Hsd as (s & usz & fsz & Hhead & Hint & Hsize & Hdiff).
    apply isfile_lookup in Hfile as [c Hc].
    rewrite (getsize_file _ _ _ Hc) in Hsize. injection Hsize as <-.
    exists s, c. repeat split; [exact Hhead | | exact Hc].
    rewrite Hint. f_equal. lia.
  - intros Hf. apply fetch_steps_spec in Hf as [Hmono Hout].
    assert (Hw3 : forall w3,
              w3 = (if bool_decide (sd <> None)
                    then snd (logging (LogWarning "File %s and URI %s size mismatch"
                                         [filename; uri]) w2)
                    else w2) ->
              heap w3 = heap w /\ fs w3 = fs w /\ record_of self w3 = record_of self w).
    { intros w3 ->. destruct (bool_decide (sd <> None)); cbn [snd logging heap fs];
        unfold record_of, deref in *; cbn [heap]; rewrite ?Hh; auto. }
    destruct (Hw3 _ eq_refl) as (Hh3 & Hfs3 & Hrec3).
    rewrite Hfs3 in Hmono. split; [exact Hmono |].
    destruct out as [p|e]; [|now rewrite Hout].
    destruct Hout as (-> & Hheap & Hfetched).
    split; [first [reflexivity | apply Hu] |]. right. rewrite Hheap, Hrec3, Hh3. split; [reflexivity | now right].
Qed.

Lemma get_setitem_eq (d : odict) (k v : string) :
  OrderedDict.get (setitem d k v) k = Some v.
Proof.
  induction d as [|[k' v'] d IH]; simpl.
  - now rewrite String.eqb_refl.
  - destruct (String.eqb k' k) eqn:Hk; simpl; rewrite Hk; [reflexivity | exact IH].
Qed.

Lemma get_setitem_ne (d : odict) (k k' v : string) :
  k <> k' -> OrderedDict.get (setitem d k v) k' = OrderedDict.get d k'.
Proof.
  intros Hne. induction d as [|[k0 v0] d IH]; simpl.
  - destruct (String.eqb_spec k k'); [contradiction | reflexivity].
  - destruct (String.eqb_spec k0 k) as [->|Hk0]; simpl.
    + destruct (String.eqb_spec k k'); [contradiction | reflexivity].
    + now rewrite IH.
Qed.

Lemma record_of_insert (self : Downloader) (w w' : world) (d : odict) :
  heap w' = <[_downloaded_files_by_uri self := d]> (heap w) -> record_of self w' = d.
Proof. intros H. unfold record_of, deref. now rewrite H, lookup_insert_eq. Qed.

Lemma record_of_heap (self : Downloader) (w w' : world) :
  heap w' = heap w -> record_of self w' = record_of self w.
Proof. intros H. unfold record_of, deref. now rewrite H. Qed.

Lemma run_app (self : Downloader) (calls1 calls2 : list (network * string)) (w : world) :
  run slugify self (calls1 ++ calls2) w
  = run slugify self calls2 (run slugify self calls1 w).
Proof.
  revert w. induction calls1 as [|[session uri] calls1 IH]; intros w; simpl;
    [reflexivity | apply IH].
Qed.

(** A call that returns leaves its URI recorded with the path it returned. *)
Lemma download_one_file_records (session : network) (self : Downloader) (uri : string)
    (w w' : world) (p : string) :
  download_one_file slugify session self uri w = (Ok p, w') ->
  OrderedDict.get (record_of self w') uri = Some p.
Proof.
  intros H. apply download_one_file_cases in H as [_ [_ [H|H]]].
  - destruct H as (Hget & Hheap & _). now rewrite (record_of_heap _ _ _ Hheap).
  - destruct H as [Hheap _]. rewrite (record_of_insert _ _ _ _ Hheap).
    apply get_setitem_eq.
Qed.

(** An entry with the mapped path of its URI stays as it is. *)
Lemma record_entry_stays (session : network) (self : Downloader) (uri u p : string)
    (w w' : world) (out : result string) :
  (forall w0, uri_to_filename slugify self u w0 = (Ok p, w0)) ->
  OrderedDict.get (record_of self w) u = Some p ->
  download_one_file slugify session self uri w = (out, w') ->
  OrderedDict.get (record_of self w') u = Some p.
Proof.
  intros Hmap Hget H. apply download_one_file_cases in H as [_ H].
  destruct out as [p'|e]; [|now rewrite (record_of_heap _ _ _ H)].
  destruct H as [Hu [(_ & Hheap & _)|[Hheap _]]];
    [now rewrite (record_of_heap _ _ _ Hheap) |].
  rewrite (record_of_insert _ _ _ _ Hheap).
  destruct (decide (uri = u)) as [->|Hne].
  - rewrite Hmap in Hu. injection Hu as <-. apply get_setitem_eq.
  - now rewrite get_setitem_ne.
Qed.

Lemma record_entry_persists (self : Downloader) (u p : string)
    (calls : list (network * string)) (w : world) :
  (forall w0, uri_to_filename slugify self u w0 = (Ok p, w0)) ->
  OrderedDict.get (record_of self w) u = Some p ->
  OrderedDict.get (record_of self (run slugify self calls w)) u = Some p.
Proof.
  intros Hmap. revert w. induction calls as [|[session uri] calls IH]; intros w Hget;
    simpl; [exact Hget |].
  apply IH.
  destruct (download_one_file slugify session self uri w) as [out w'] eqn:H.
  exact (record_entry_stays _ _ _ _ _ _ _ _ Hmap Hget H).
Qed.

Lemma already_downloaded (session : network) (self : Downloader) (uri p : string)
    (w : world) :
  uri_to_filename slugify self uri w = (Ok p, w) ->
  OrderedDict.get (record_of self w) uri = Some p ->
  download_one_file slugify session self uri w
  = (Ok p, mkWorld (heap w) (fs w) (net_log w)
             (log_records w ++ [LogWarning "File %s already downloaded" [p]])).
Proof.
  intros Hu Hget. rewrite download_one_file_eq, Hu, Hget.
  now rewrite bool_decide_eq_true_2.
Qed.

Lemma size_diff_no_header (session : network) (self : Downloader) (uri filename : string)
    (w : world) :
  http_head session uri = Ok (mkHead None) ->
  url_and_file_size_diff session self uri filename w
  = (Ok None,
     mkWorld (heap w) (fs w) (net_log w ++ [HEAD uri])
       (log_records w ++ [LogWarning "No 'Content-Length' header for %s" [uri]])).
Proof.
  intros Hhead. unfold url_and_file_size_diff. run_monad. now rewrite Hhead.
Qed.

Lemma size_diff_header (session : network) (self : Downloader) (uri filename : string)
    (w : world) (header_size_str : string) (uri_size : Z) c :
  http_head session uri = Ok (mkHead (Some header_size_str)) ->
  py_int header_size_str = Ok uri_size ->
  fs w !! filename = Some (File c) ->
  url_and_file_size_diff session self uri filename w
  = (Ok (Some (uri_size - Z.of_nat (length c))%Z),
     mkWorld (heap w) (fs w) (net_log w ++ [HEAD uri]) (log_records w)).
Proof.
  intros Hhead Hint Hfile. unfold url_and_file_size_diff. run_monad.
  rewrite Hhead. cbn [content_length_header]. run_monad.
  now rewrite Hint, (getsize_file _ _ _ Hfile).
Qed.

Lemma fetch_steps_dir_exists (session : network) (self : Downloader)
    (uri filename : string) (w : world) :
  isdir (fs w) (dirname filename) = true ->
  fetch_steps slugify session self uri filename w
  = match _retrieve_uri_to_file session self uri filename w with
    | (Ok _, w2) =>
        (Ok filename,
         mkWorld (<[_downloaded_files_by_uri self :=
                      setitem (record_of self w2) uri filename]> (heap w2))
           (fs w2) (net_log w2)
           (log_records w2 ++ [LogInfo "Downloaded %s -> %s" [uri; filename]]))
    | (Raise e, w2) => (Raise e, w2)
    end.
Proof.
  intros Hdir. unfold fetch_steps. run_monad. rewrite Hdir.
  now destruct (_retrieve_uri_to_file session self uri filename w) as [[[]|e] w2].
Qed.

(** An existing file whose length the server does not tell: the call goes
    on to the fetch, in the world left by the HEAD request. *)
Lemma download_after_missing_length (session : network) (self : Downloader)
    (uri filename : string) (w : world) c :
  uri_to_filename slugify self uri w = (Ok filename, w) ->
  OrderedDict.get (record_of self w) uri <> Some filename ->
  fs w !! filename = Some (File c) ->
  http_head session uri = Ok (mkHead None) ->
  download_one_file slugify session self uri w
  = fetch_steps slugify session self uri filename
      (mkWorld (heap w) (fs w) (net_log w ++ [HEAD uri])
         (log_records w ++ [LogWarning "No 'Content-Length' header for %s" [uri]])).
Proof.
  intros Hu Hget Hfile Hhead.
  rewrite download_one_file_eq, Hu.
  rewrite bool_decide_eq_false_2 by congruence.
  assert (isfile (fs w) filename = true) as -> by (apply isfile_lookup; eauto).
  rewrite (size_diff_no_header _ _ _ _ _ Hhead).
  rewrite (bool_decide_eq_false_2 (None = Some 0%Z)) by discriminate.
  now rewrite (bool_decide_eq_false_2 (None <> None)) by tauto.
Qed.

(** A fetch that returns has sent the GET. *)
Lemma fetch_steps_returns_log (session : network) (self : Downloader)
    (uri filename : string) (w w' : world) (p : string) :
  fetch_steps slugify session self uri filename w = (Ok p, w') ->
  net_log w' = (net_log w ++ [GET uri])%list.
Proof.
  unfold fetch_steps. run_monad.
  destruct (isdir (fs w) (dirname filename)).
  - destruct (_retrieve_uri_to_file session self uri filename w) as [o w2] eqn:Hr.
    apply retrieve_spec in Hr as (_ & _ & Hlog & _).
    destruct o as [[]|e]; intros [= <- <-]. exact Hlog.
  - destruct (makedirs (dirname filename) (fs w)) as [fs1|e]; [|discriminate].
    run_monad.
    match goal with
    | |- context [_retrieve_uri_to_file session self uri filename ?w1] =>
        destruct (_retrieve_uri_to_file session self uri filename w1) as [o w2] eqn:Hr
    end.
    apply retrieve_spec in Hr as (_ & _ & Hlog & _). cbn [net_log] in Hlog.
    destruct o as [[]|e]; intros [= <- <-]. exact Hlog.
Qed.

(** A call that returns a path which was not recorded for its URI has asked
    the server: a HEAD, a GET, or both. *)
Lemma download_one_file_first_requests (session : network) (self : Downloader)
    (uri : string) (w w1 : world) (p : string) :
  download_one_file slugify session self uri w = (Ok p, w1) ->
  OrderedDict.get (record_of self w) uri <> Some p ->
  net_log w1 = (net_log w ++ [HEAD uri])%list
  \/ net_log w1 = (net_log w ++ [GET uri])%list
  \/ net_log w1 = (net_log w ++ [HEAD uri; GET uri])%list.
Proof.
  rewrite download_one_file_eq.
  destruct (uri_to_filename slugify self uri w) as [[filename|e] w0] eqn:Hu;
    apply uri_to_filename_result in Hu as [-> Hu]; [|discriminate].
  destruct (bool_decide (Some filename = _)) eqn:Hrec.
  { apply bool_decide_eq_true in Hrec. intros [= <- <-] Hne. congruence. }
  destruct (isfile (fs w) filename).
  2:{ intros Hf _. right; left. exact (fetch_steps_returns_log _ _ _ _ _ _ _ Hf). }
  destruct (url_and_file_size_diff session self uri filename w) as [[sd|e] w2] eqn:Hsd;
    apply size_diff_spec in Hsd as (_ & _ & Hnl & _); [|discriminate].
  destruct (bool_decide (sd = Some 0%Z)).
  - intros [= <- <-] _. left. exact Hnl.
  - intros Hf _. apply fetch_steps_returns_log in Hf. right; right. rewrite Hf.
    destruct (bool_decide (sd <> None)); cbn [snd logging net_log];
      now rewrite Hnl, <- app_assoc.
Qed.

End DownloadFacts.

(** C1: when the GET fails, the code logs the exception and goes on to the
    write step: an existing file whose length the server did not tell is
    opened and truncated, and an [UnboundLocalError] reaches the caller
    instead of the request's exception; nothing is recorded. *)
Theorem download_one_file_get_fails (slugify : string -> string -> string)
    (session : network) (self : Downloader) (uri filename : string) (w : world) c :
  uri_to_filename slugify self uri w = (Ok filename, w) ->
  OrderedDict.get (record_of self w) uri <> Some filename ->
  fs w !! filename = Some (File c) ->
  isdir (fs w) (dirname filename) = true ->
  http_head session uri = Ok (mkHead None) ->
  http_get session uri = Raise RequestException ->
  download_one_file slugify session self uri w
  = (Raise UnboundLocalError,
     mkWorld (heap w) (<[filename := File []]> (fs w))
       (net_log w ++ [HEAD uri; GET uri])
       (log_records w
        ++ [LogWarning "No 'Content-Length' header for %s" [uri];
            LogInfo "Downloading %s to %s" [uri; filename];
            LogException RequestException])).
Proof.
  intros Hu Hget Hfile Hdir Hhead Hfail.
  rewrite (download_after_missing_length slugify _ _ _ _ _ _ Hu Hget Hfile Hhead).
  rewrite fetch_steps_dir_exists by exact Hdir.
  erewrite retrieve_get_fails;
    [| exact Hfail | cbn [fs]; exact (open_wb_existing _ _ _ Hfile)].
  cbn [heap fs net_log log_records]. now rewrite <- !app_assoc.
Qed.

(** C5: a URI that is not recorded, whose mapped path names a file of
    exactly the length the server reports: the call records the URI, returns
    the path, sends the HEAD request and nothing else, and leaves the files
    as they are. *)
Theorem download_one_file_same_size (slugify : string -> string -> string)
    (session : network) (self : Downloader) (uri filename : string) (w : world)
    (header_size_str : string) c :
  uri_to_filename slugify self uri w = (Ok filename, w) ->
  OrderedDict.get (record_of self w) uri = None ->
  fs w !! filename = Some (File c) ->
  http_head session uri = Ok (mkHead (Some header_size_str)) ->
  py_int header_size_str = Ok (Z.of_nat (length c)) ->
  exists w',
    download_one_file slugify session self uri w = (Ok filename, w')
    /\ OrderedDict.get (record_of self w') uri = Some filename
    /\ record_of self w' = setitem (record_of self w) uri filename
    /\ fs w' = fs w
    /\ net_log w' = (net_log w ++ [HEAD uri])%list.
Proof.
  intros Hu Hget Hfile Hhead Hint.
  exists (mkWorld (<[_downloaded_files_by_uri self :=
                       setitem (record_of self w) uri filename]> (heap w))
            (fs w) (net_log w ++ [HEAD uri])
            (log_records w
             ++ [LogWarning "File %s already exists and same size" [filename]])).
  split.
  - rewrite download_one_file_eq, Hu, Hget.
    rewrite bool_decide_eq_false_2 by discriminate.
    assert (isfile (fs w) filename = true) as -> by (apply isfile_lookup; eauto).
    rewrite (size_diff_header _ _ _ _ _ _ _ _ Hhead Hint Hfile).
    rewrite bool_decide_eq_true_2 by (f_equal; lia).
    reflexivity.
  - erewrite (record_of_insert self w) by (cbn [heap]; reflexivity).
    repeat split. apply get_setitem_eq.
Qed.

(** C6: an existing file at the mapped path and a HEAD response without
    Content-Length: the size check reports nothing and raises nothing.  Where
    the directory of the path exists, the call goes on to the GET, and when
    the GET answers the file is overwritten with the body, the URI is
    recorded and the path returned.  Where the path has no directory part
    (the download directory is the empty text and the URI has no path
    segments), [os.path.isdir] is false of the empty text and [os.makedirs]
    raises on it: the call raises [FileNotFoundError] once the HEAD is
    answered, no GET is sent and the file is left as it is. *)
Theorem download_one_file_no_content_length (slugify : string -> string -> string)
    (session : network) (self : Downloader) (uri filename : string) (w : world) c :
  uri_to_filename slugify self uri w = (Ok filename, w) ->
  OrderedDict.get (record_of self w) uri <> Some filename ->
  fs w !! filename = Some (File c) ->
  http_head session uri = Ok (mkHead None) ->
  url_and_file_size_diff session self uri filename w
  = (Ok None,
     mkWorld (heap w) (fs w) (net_log w ++ [HEAD uri])
       (log_records w ++ [LogWarning "No 'Content-Length' header for %s" [uri]]))
  /\ (isdir (fs w) (dirname filename) = true ->
      exists out w',
        download_one_file slugify session self uri w = (out, w')
        /\ net_log w' = (net_log w ++ [HEAD uri; GET uri])%list
        /\ forall resp,
             http_get session uri = Ok resp ->
             out = Ok filename
             /\ fs w' = <[filename := File (content resp)]> (fs w)
             /\ OrderedDict.get (record_of self w') uri = Some filename)
  /\ (isdir (fs w) (dirname filename) = false ->
      is_empty (dirname filename) = true ->
      download_one_file slugify session self uri w
      = (Raise FileNotFoundError,
         mkWorld (heap w) (fs w) (net_log w ++ [HEAD uri])
           (log_records w ++ [LogWarning "No 'Content-Length' header for %s" [uri]]))).
Proof.
  intros Hu Hget Hfile Hhead.
  split; [exact (size_diff_no_header _ _ _ _ _ Hhead) |].
  rewrite (download_after_missing_length slugify _ _ _ _ _ _ Hu Hget Hfile Hhead).
  split.
  - intros Hdir. rewrite fetch_steps_dir_exists by exact Hdir.
    match goal with
    | |- context [_retrieve_uri_to_file session self uri filename ?w1] =>
        destruct (_retrieve_uri_to_file session self uri filename w1) as [o w2] eqn:Hr;
        pose proof (retrieve_spec _ _ _ _ _ _ _ Hr) as (_ & _ & Hlog & _);
        cbn [net_log] in Hlog
    end.
    assert (Hlog' : net_log w2 = (net_log w ++ [HEAD uri; GET uri])%list)
      by (rewrite Hlog; now rewrite <- app_assoc).
    destruct o as [[]|e].
    + eexists _, _. split; [reflexivity |]. cbn [net_log fs]. split; [exact Hlog' |].
      intros resp Hresp.
      erewrite retrieve_returns in Hr;
        [| exact Hresp | cbn [fs]; exact (open_wb_existing _ _ _ Hfile)].
      injection Hr as <-. cbn [fs heap]. split; [reflexivity |]. split; [reflexivity |].
      unfold record_of at 1, deref. cbn [heap]. rewrite lookup_insert_eq.
      apply get_setitem_eq.
    + eexists _, _. split; [reflexivity |]. split; [exact Hlog' |].
      intros resp Hresp.
      erewrite retrieve_returns in Hr;
        [| exact Hresp | cbn [fs]; exact (open_wb_existing _ _ _ Hfile)].
      discriminate Hr.
  - intros Hnodir Hempty. unfold fetch_steps. run_monad.
    rewrite Hnodir. unfold makedirs. now rewrite Hempty.
Qed.

(** X26: whatever the servers answer and whichever URIs are asked for,
    after any sequence of calls on a downloader that started with an empty
    record, every entry [uri -> p] of the record has the mapped path of
    [uri], [p] names an existing file, and the entry goes back to a call for
    [uri] that returned [p] and left the file either verified (its size is
    the length reported on that call's HEAD) or fetched (it holds the whole
    body of that call's GET); a call that raises records nothing. *)
Theorem record_entries_justified (slugify : string -> string -> string)
    (self : Downloader) (calls : list (network * string)) (w0 : world) :
  record_of self w0 = [] ->
  (forall uri p,
     OrderedDict.get (record_of self (run slugify self calls w0)) uri = Some p ->
     entry_justified slugify self calls w0 uri p)
  /\ (forall session uri w e w',
        download_one_file slugify session self uri w = (Raise e, w') ->
        record_of self w' = record_of self w).
Proof.
  intros Hempty. split.
  2:{ intros session uri w e w' H.
      apply download_one_file_cases in H as [_ H]. now apply record_of_heap. }
  induction calls as [|[session uri'] calls IH] using rev_ind.
  - intros uri p. simpl. rewrite Hempty. discriminate.
  - intros uri p. rewrite run_app. simpl run.
    remember (run slugify self calls w0) as w eqn:Hw.
    destruct (download_one_file slugify session self uri' w) as [out w'] eqn:Hd.
    cbn [snd]. intros Hget.
    pose proof (download_one_file_cases slugify _ _ _ _ _ _ Hd) as [Hmono Hout].
    assert (Hrun : run slugify self (calls ++ [(session, uri')]) w0 = w')
      by (rewrite run_app; simpl; now rewrite <- Hw, Hd).
    assert (Hold : OrderedDict.get (record_of self w) uri = Some p ->
                   entry_justified slugify self (calls ++ [(session, uri')]) w0 uri p).
    { intros Hg.
      destruct (IH uri p Hg) as (Hmap & Hfile & c1 & s & c2 & w2 & Heq & Hcall & Hj).
      rewrite <- Hw in Hfile.
      split; [exact Hmap |]. split; [rewrite Hrun; now apply Hmono |].
      exists c1, s, (c2 ++ [(session, uri')])%list, w2.
      split; [now rewrite Heq, <- app_assoc | now split]. }
    destruct out as [p'|e].
    + destruct Hout as [Hu [(Hg & Hheap & _)|(Hheap & Hj)]].
      * apply Hold. now rewrite <- (record_of_heap _ _ _ Hheap).
      * rewrite (record_of_insert _ _ _ _ Hheap) in Hget.
        destruct (decide (uri' = uri)) as [->|Hne].
        -- rewrite get_setitem_eq in Hget. injection Hget as ->.
           split; [apply (uri_to_filename_result slugify _ _ _ _ _ Hu) |].
           split.
           { rewrite Hrun. apply isfile_lookup.
             destruct Hj as [(_ & _ & s & c & _ & _ & Hc)|(r & _ & Hc)]; eauto. }
           exists calls, session, [], w'. rewrite <- Hw. now repeat split.
        -- rewrite get_setitem_ne in Hget by assumption. now apply Hold.
    + apply Hold. now rewrite <- (record_of_heap _ _ _ Hout).
Qed.

(** C4: a call for a URI that returns a path leaves the URI recorded with
    that path, and unless the record already answered it, it has asked the
    server: the requests it sent are a HEAD, a GET, or a HEAD and a GET for
    the URI.  A later call for the same URI, after any other calls of the
    session and whatever the network then answers, finds the entry in the
    record: it returns the same path and leaves the requests sent, the files
    and the record as they are; a warning in the log is all it adds. *)
Theorem download_one_file_twice (slugify : string -> string -> string)
    (session1 session2 : network) (self : Downloader) (uri p : string)
    (w w1 : world) (calls : list (network * string)) :
  download_one_file slugify session1 self uri w = (Ok p, w1) ->
  ((OrderedDict.get (record_of self w) uri = Some p /\ net_log w1 = net_log w)
   \/ (OrderedDict.get (record_of self w) uri <> Some p
       /\ (net_log w1 = (net_log w ++ [HEAD uri])%list
           \/ net_log w1 = (net_log w ++ [GET uri])%list
           \/ net_log w1 = (net_log w ++ [HEAD uri; GET uri])%list)))
  /\ OrderedDict.get (record_of self w1) uri = Some p
  /\ OrderedDict.get (record_of self (run slugify self calls w1)) uri = Some p
  /\ download_one_file slugify session2 self uri (run slugify self calls w1)
     = (Ok p,
        mkWorld (heap (run slugify self calls w1)) (fs (run slugify self calls w1))
          (net_log (run slugify self calls w1))
          (log_records (run slugify self calls w1)
           ++ [LogWarning "File %s already downloaded" [p]])).
Proof.
  intros H.
  pose proof (download_one_file_records slugify _ _ _ _ _ _ H) as Hrec.
  pose proof (download_one_file_cases slugify _ _ _ _ _ _ H) as [_ [Hu Hcases]].
  pose proof (uri_to_filename_result slugify _ _ _ _ _ Hu) as [_ Hmap].
  pose proof (record_entry_persists slugify self uri p calls w1 Hmap Hrec) as Hrec'.
  split; [|split; [exact Hrec | split; [exact Hrec' |]]].
  - destruct (decide (OrderedDict.get (record_of self w) uri = Some p)) as [Hwas|Hnot].
    + left. split; [exact Hwas |].
      rewrite (already_downloaded slugify _ _ _ _ _ Hu Hwas) in H.
      now injection H as <-.
    + right. split; [exact Hnot |].
      exact (download_one_file_first_requests slugify _ _ _ _ _ _ H Hnot).
  - apply (already_downloaded slugify); [apply Hmap | exact Hrec'].
Qed.

Ltac heap_lookup :=
  repeat (progress (unfold record_of, update_dict, set_heap, deref;
                    cbn [heap fs net_log log_records snd]));
  repeat (first [rewrite lookup_insert_eq | rewrite lookup_insert_ne by congruence]);
  try reflexivity.

(** C9: [downloaded_files_by_url] returns a new dictionary with the entries
    of the record in the same order; the record and the rest of the world are
    as before; changing the returned dictionary in any way leaves the record
    unchanged, and changing the record leaves the returned dictionary
    unchanged. *)
Theorem downloaded_files_by_url_copy (self : Downloader) (w : world) :
  is_Some (heap w !! _downloaded_files_by_uri self) ->
  exists l w',
    downloaded_files_by_url self w = (Ok l, w')
    /\ l <> _downloaded_files_by_uri self
    /\ heap w !! l = None
    /\ deref l w' = record_of self w
    /\ record_of self w' = record_of self w
    /\ fs w' = fs w /\ net_log w' = net_log w /\ log_records w' = log_records w
    /\ (forall f : odict -> odict,
          record_of self (snd (update_dict l f w')) = record_of self w'
          /\ deref l (snd (update_dict l f w')) = f (deref l w'))
    /\ (forall f : odict -> odict,
          deref l (snd (update_dict (_downloaded_files_by_uri self) f w')) = deref l w').
Proof.
  intros Halloc.
  set (l := fresh (dom (heap w))).
  assert (Hfresh : heap w !! l = None)
    by (apply not_elem_of_dom; apply is_fresh).
  assert (Hne : l <> _downloaded_files_by_uri self).
  { intros Heq. rewrite Heq in Hfresh. rewrite Hfresh in Halloc.
    now destruct Halloc. }
  exists l, (mkWorld (<[l := record_of self w]> (heap w)) (fs w) (net_log w) (log_records w)).
  split; [reflexivity |]. split; [exact Hne |]. split; [exact Hfresh |].
  split; [heap_lookup |]. split; [heap_lookup |].
  split; [reflexivity |]. split; [reflexivity |]. split; [reflexivity |].
  split; [intros f; split; heap_lookup | intros f; heap_lookup].
Qed.

(** ** The scenarios *)

Import Scenario.

Example init_fresh : __init__ "/data" 4 nothing = (Ok dl, fresh).
Proof. vm_compute. reflexivity. Qed.

Example download_fresh :
  fst (download_one_file Slug.slugify session_no_length dl uri_b fresh) = Ok path_b.
Proof. vm_compute. reflexivity. Qed.


(** ** Instances *)

Lemma download_one_file_get_fails_witness :
  download_one_file Slug.slugify session_down dl uri_b on_disk_b
  = (Raise UnboundLocalError,
     mkWorld (heap on_disk_b) (<[path_b := File []]> (fs on_disk_b))
       (net_log on_disk_b ++ [HEAD uri_b; GET uri_b])
       (log_records on_disk_b
        ++ [LogWarning "No 'Content-Length' header for %s" [uri_b];
            LogInfo "Downloading %s to %s" [uri_b; path_b];
            LogException RequestException])).
Proof.
  apply (download_one_file_get_fails Slug.slugify session_down dl uri_b path_b
           on_disk_b body_ab).
  - vm_compute. reflexivity.
  - vm_compute. discriminate.
  - vm_compute. reflexivity.
  - vm_compute. reflexivity.
  - reflexivity.
  - reflexivity.
Defined.

Lemma record_entries_justified_witness :
  (forall uri p,
     OrderedDict.get
       (record_of dl (run Slug.slugify dl [(session_q, uri_q1); (session_q, uri_q2)]
                        on_disk_q)) uri = Some p ->
     entry_justified Slug.slugify dl [(session_q, uri_q1); (session_q, uri_q2)]
       on_disk_q uri p)
  /\ (forall session uri w e w',
        download_one_file Slug.slugify session dl uri w = (Raise e, w') ->
        record_of dl w' = record_of dl w).
Proof.
  apply (record_entries_justified Slug.slugify dl
           [(session_q, uri_q1); (session_q, uri_q2)] on_disk_q).
  reflexivity.
Defined.

Lemma download_one_file_twice_witness :
  ((OrderedDict.get (record_of dl fresh) uri_b = Some path_b
    /\ net_log (snd (download_one_file Slug.slugify session_no_length dl uri_b fresh))
       = net_log fresh)
   \/ (OrderedDict.get (record_of dl fresh) uri_b <> Some path_b
       /\ (net_log (snd (download_one_file Slug.slugify session_no_length dl uri_b fresh))
           = (net_log fresh ++ [HEAD uri_b])%list
           \/ net_log (snd (download_one_file Slug.slugify session_no_length dl uri_b fresh))
              = (net_log fresh ++ [GET uri_b])%list
           \/ net_log (snd (download_one_file Slug.slugify session_no_length dl uri_b fresh))
              = (net_log fresh ++ [HEAD uri_b; GET uri_b])%list)))
  /\ OrderedDict.get
       (record_of dl (snd (download_one_file Slug.slugify session_no_length dl uri_b fresh)))
       uri_b = Some path_b
  /\ OrderedDict.get
       (record_of dl
          (run Slug.slugify dl [(session_q, uri_q1)]
             (snd (download_one_file Slug.slugify session_no_length dl uri_b fresh))))
       uri_b = Some path_b
  /\ download_one_file Slug.slugify session_down dl uri_b
       (run Slug.slugify dl [(session_q, uri_q1)]
          (snd (download_one_file Slug.slugify session_no_length dl uri_b fresh)))
     = (Ok path_b,
        mkWorld
          (heap (run Slug.slugify dl [(session_q, uri_q1)]
                   (snd (download_one_file Slug.slugify session_no_length dl uri_b fresh))))
          (fs (run Slug.slugify dl [(session_q, uri_q1)]
                 (snd (download_one_file Slug.slugify session_no_length dl uri_b fresh))))
          (net_log (run Slug.slugify dl [(session_q, uri_q1)]
                      (snd (download_one_file Slug.slugify session_no_length dl uri_b fresh))))
          (log_records
             (run Slug.slugify dl [(session_q, uri_q1)]
                (snd (download_one_file Slug.slugify session_no_length dl uri_b fresh)))
           ++ [LogWarning "File %s already downloaded" [path_b]])).
Proof.
  apply (download_one_file_twice Slug.slugify session_no_length session_down dl uri_b
           path_b fresh
           (snd (download_one_file Slug.slugify session_no_length dl uri_b fresh))
           [(session_q, uri_q1)]).
  vm_compute. reflexivity.
Defined.

Lemma download_one_file_same_size_witness :
  exists w',
    download_one_file Slug.slugify session_two_bytes dl uri_b on_disk_b = (Ok path_b, w')
    /\ OrderedDict.get (record_of dl w') uri_b = Some path_b
    /\ record_of dl w' = setitem (record_of dl on_disk_b) uri_b path_b
    /\ fs w' = fs on_disk_b
    /\ net_log w' = (net_log on_disk_b ++ [HEAD uri_b])%list.
Proof.
  apply (download_one_file_same_size Slug.slugify session_two_bytes dl uri_b path_b
           on_disk_b "2" body_ab).
  - vm_compute. reflexivity.
  - vm_compute. reflexivity.
  - vm_compute. reflexivity.
  - reflexivity.
  - vm_compute. reflexivity.
Defined.

Lemma download_one_file_no_content_length_witness :
  url_and_file_size_diff session_no_length dl_here uri_host path_host on_disk_host
  = (Ok None,
     mkWorld (heap on_disk_host) (fs on_disk_host) (net_log on_disk_host ++ [HEAD uri_host])
       (log_records on_disk_host
        ++ [LogWarning "No 'Content-Length' header for %s" [uri_host]]))
  /\ download_one_file Slug.slugify session_no_length dl_here uri_host on_disk_host
     = (Raise FileNotFoundError,
        mkWorld (heap on_disk_host) (fs on_disk_host)
          (net_log on_disk_host ++ [HEAD uri_host])
          (log_records on_disk_host
           ++ [LogWarning "No 'Content-Length' header for %s" [uri_host]])).
Proof.
  destruct (download_one_file_no_content_length Slug.slugify session_no_length dl_here
              uri_host path_host on_disk_host body_ab) as (Hsize & _ & Hraise).
  - vm_compute. reflexivity.
  - vm_compute. discriminate.
  - vm_compute. reflexivity.
  - reflexivity.
  - split; [exact Hsize |]. apply Hraise; vm_compute; reflexivity.
Defined.


Lemma uri_to_filename_pure_witness :
  fst (uri_to_filename Slug.slugify dl uri_b fresh)
  = fst (uri_to_filename Slug.slugify (mkDownloader "/data" 7 1) uri_b on_disk_b)
  /\ snd (uri_to_filename Slug.slugify dl uri_b fresh) = fresh
  /\ snd (uri_to_filename Slug.slugify (mkDownloader "/data" 7 1) uri_b on_disk_b)
     = on_disk_b.
Proof.
  apply (uri_to_filename_pure Slug.slugify dl (mkDownloader "/data" 7 1) uri_b
           fresh on_disk_b).
  reflexivity.
Defined.

Lemma uri_to_filename_ignores_query_and_fragment_witness :
  uri_to_filename Slug.slugify dl (uri_b +:+ "?x=1#top") fresh
  = uri_to_filename Slug.slugify dl (uri_b +:+ "#frag") fresh.
Proof.
  apply (uri_to_filename_ignores_query_and_fragment Slug.slugify dl uri_b
           "?x=1#top" "#frag" fresh).
  - reflexivity.
  - reflexivity.
  - reflexivity.
Defined.

Lemma downloaded_files_by_url_copy_witness :
  exists l w',
    downloaded_files_by_url dl fresh = (Ok l, w')
    /\ l <> _downloaded_files_by_uri dl
    /\ heap fresh !! l = None
    /\ deref l w' = record_of dl fresh
    /\ record_of dl w' = record_of dl fresh
    /\ fs w' = fs fresh /\ net_log w' = net_log fresh
    /\ log_records w' = log_records fresh
    /\ (forall f : odict -> odict,
          record_of dl (snd (update_dict l f w')) = record_of dl w'
          /\ deref l (snd (update_dict l f w')) = f (deref l w'))
    /\ (forall f : odict -> odict,
          deref l (snd (update_dict (_downloaded_files_by_uri dl) f w')) = deref l w').
Proof.
  apply (downloaded_files_by_url_copy dl fresh).
  exists []. vm_compute. reflexivity.
Defined.


(** * Further properties *)

(** ** Sanitizing a segment *)

Section FilterFacts.

Lemma str_split_not_nil c (s : string) : str_split c s <> [].
Proof.
  destruct s as [|a s]; simpl; [discriminate |].
  destruct (Ascii.eqb a c); [discriminate |].
  destruct (str_split c s); discriminate.
Qed.

Lemma str_split_join c (l : list string) :
  l <> [] ->
  Forall (fun s => str_in c s = false) l ->
  str_split c (str_join (String c "") l) = l.
Proof.
  intros Hne Hl. induction Hl as [|s l Hs Hl IH]; [contradiction |].
  destruct l as [|s' l].
  - simpl. now apply str_split_not_in.
  - change (str_join (String c "") (s :: s' :: l))
      with (s +:+ String c "" +:+ str_join (String c "") (s' :: l)).
    rewrite append_cons, append_nil_l, str_split_app by exact Hs.
    f_equal. apply IH. discriminate.
Qed.

Lemma length_str_split c (s : string) :
  length (str_split c s) = S (count_char c s).
Proof.
  induction s as [|a s IH]; simpl; [reflexivity |].
  destruct (Ascii.eqb a c); simpl; [now rewrite IH |].
  destruct (str_split c s); simpl in *; [discriminate | exact IH].
Qed.

Lemma str_split_dots (n : nat) : str_split "." (dots n) = repeat "" (S n).
Proof. induction n as [|n IH]; simpl; [reflexivity | now rewrite IH]. Qed.

Lemma str_join_empties (n : nat) : str_join "." (repeat "" (S n)) = dots n.
Proof.
  induction n as [|n IH]; [reflexivity |].
  change (str_join "." (repeat "" (S (S n))))
    with ("" +:+ "." +:+ str_join "." (repeat "" (S n))).
  now rewrite IH.
Qed.

End FilterFacts.

(** X1: [filter_filename_part] keeps the dots of a segment: when no
    slugified part holds a dot, the result splits on "." into the slugified
    parts of the input, and has as many dots as the input. *)
Theorem filter_filename_part_keeps_dots (slugify : string -> string -> string)
    (text char_to_replace : string) :
  Forall (fun part => str_in "." (slugify part char_to_replace) = false)
    (str_split "." text) ->
  str_split "." (filter_filename_part slugify text char_to_replace)
  = map (fun s => slugify s char_to_replace) (str_split "." text)
  /\ count_char "." (filter_filename_part slugify text char_to_replace)
     = count_char "." text.
Proof.
  intros Hparts.
  assert (Hsplit : str_split "." (filter_filename_part slugify text char_to_replace)
                   = map (fun s => slugify s char_to_replace) (str_split "." text)).
  { unfold filter_filename_part. apply str_split_join.
    - destruct (str_split "." text) eqn:H; [now apply str_split_not_nil in H | discriminate].
    - now apply Forall_map. }
  split; [exact Hsplit |].
  apply (f_equal (@length string)) in Hsplit.
  rewrite length_map, !length_str_split in Hsplit. lia.
Qed.

(** X2: a segment made of dots only, such as "." and "..", is returned as it
    is when the slugification of the empty text is empty. *)
Theorem filter_filename_part_dots (slugify : string -> string -> string)
    (char_to_replace : string) (n : nat) :
  slugify "" char_to_replace = "" ->
  filter_filename_part slugify (dots n) char_to_replace = dots n.
Proof.
  intros Hempty. unfold filter_filename_part.
  rewrite str_split_dots.
  assert (Hmap : map (fun s => slugify s char_to_replace) (repeat "" (S n))
                 = repeat "" (S n)).
  { induction (S n) as [|m IH]; simpl; [reflexivity | now rewrite Hempty, IH]. }
  rewrite Hmap. apply str_join_empties.
Qed.

(** ** The mapped path of a URI built from its components *)

Section MappedPathFacts.

Variable slugify : string -> string -> string.

Lemma uri_to_filename_parsed (self : Downloader) (uri : string) (url_parts : ParseResult)
    (w : world) :
  urlparse uri = Ok url_parts ->
  uri_to_filename slugify self uri w
  = (Ok (path_join (_download_dir self) (str_join sep (filtered_parts slugify url_parts))), w).
Proof.
  intros H. unfold uri_to_filename, bind, lift, ret, filtered_parts. now rewrite H.
Qed.

Lemma uri_to_filename_absolute_uri (self : Downloader) (sch authority : string)
    (segs : list string) (w : world) :
  valid_scheme sch ->
  str_forall authority_char authority = true ->
  Forall (fun s => str_forall segment_char s = true) segs ->
  uri_to_filename slugify self (absolute_uri_of sch authority segs) w
  = (Ok (path_join (_download_dir self)
           (str_join sep
              (map (fun p => filter_filename_part slugify p "_")
                 (authority :: List.filter (fun s => negb (is_empty s)) segs)))), w).
Proof.
  intros Hsch Hauth Hsegs.
  rewrite (uri_to_filename_parsed _ _ _ _ (urlparse_absolute_uri _ _ _ Hsch Hauth Hsegs)).
  unfold filtered_parts, rel_filename_parts. cbn [netloc path].
  now rewrite (tail_split_path_of_segments segs Hsegs).
Qed.

Lemma str_join_cons (sepx h x : string) (l : list string) :
  str_join sepx (h :: x :: l) = h +:+ sepx +:+ str_join sepx (x :: l).
Proof. reflexivity. Qed.

Lemma startswith_sep_app (h x : string) :
  h <> "" -> str_startswith sep (h +:+ x) = str_startswith sep h.
Proof.
  destruct h as [|c h]; [contradiction |]. intros _.
  rewrite append_cons. unfold str_startswith, sep. reflexivity.
Qed.

Lemma startswith_sep_join (h : string) (l : list string) :
  h <> "" -> str_startswith sep (str_join sep (h :: l)) = str_startswith sep h.
Proof.
  intros Hh. destruct l as [|x l]; [reflexivity |].
  rewrite str_join_cons. now apply startswith_sep_app.
Qed.

Lemma startswith_sep_no_slash (h : string) :
  str_in "/" h = false -> str_startswith sep h = false.
Proof.
  destruct h as [|c h]; [reflexivity |]. simpl.
  unfold str_startswith, sep. simpl.
  destruct (Ascii.eqb c "/"); [discriminate | reflexivity].
Qed.

Lemma startswith_app (a b : string) : str_startswith a (a +:+ b) = true.
Proof. unfold str_startswith. rewrite str_take_app. apply String.eqb_refl. Qed.

Lemma Ok_inj {A : Type} (a b : A) : Ok a = Ok b -> a = b.
Proof. congruence. Qed.

Lemma append_inv_head (a x y : string) : a +:+ x = a +:+ y -> x = y.
Proof.
  induction a as [|c a IH]; [trivial |].
  rewrite !append_cons. intros [= H]. auto.
Qed.

Lemma path_join_inj (a r1 r2 : string) :
  str_startswith sep r1 = false -> str_startswith sep r2 = false ->
  path_join a r1 = path_join a r2 -> r1 = r2.
Proof.
  intros H1 H2. unfold path_join. rewrite H1, H2.
  destruct (is_empty a || str_endswith_char "/" a); intros H.
  - exact (append_inv_head _ _ _ H).
  - apply append_inv_head in H. exact (append_inv_head _ _ _ H).
Qed.

Lemma str_join_inj (l1 l2 : list string) :
  l1 <> [] -> l2 <> [] ->
  Forall (fun s => str_in "/" s = false) l1 ->
  Forall (fun s => str_in "/" s = false) l2 ->
  str_join sep l1 = str_join sep l2 -> l1 = l2.
Proof.
  intros Hn1 Hn2 H1 H2 H. apply (f_equal (str_split "/")) in H.
  unfold sep in H.
  now rewrite (str_split_join "/" l1 Hn1 H1), (str_split_join "/" l2 Hn2 H2) in H.
Qed.

End MappedPathFacts.

(** X3: the mapped path of [scheme://authority/seg1/seg2/...] is the
    download directory joined with the sanitized authority and the sanitized
    non-empty segments, separated by "/"; in particular a URI without path
    segments maps to the download directory joined with the sanitized
    authority alone. *)
Theorem uri_to_filename_of_components (slugify : string -> string -> string)
    (self : Downloader) (sch authority : string) (segs : list string) (w : world) :
  valid_scheme sch ->
  str_forall authority_char authority = true ->
  Forall (fun s => str_forall segment_char s = true) segs ->
  uri_to_filename slugify self (absolute_uri_of sch authority segs) w
  = (Ok (path_join (_download_dir self)
           (str_join sep
              (map (fun p => filter_filename_part slugify p "_")
                 (authority :: List.filter (fun s => negb (is_empty s)) segs)))), w)
  /\ uri_to_filename slugify self (absolute_uri_of sch authority []) w
     = (Ok (path_join (_download_dir self) (filter_filename_part slugify authority "_")), w).
Proof.
  intros Hsch Hauth Hsegs. split.
  - now apply uri_to_filename_absolute_uri.
  - now rewrite (uri_to_filename_absolute_uri slugify self sch authority [] w Hsch Hauth).
Qed.

(** X4: the scheme and the empty path segments do not count: two URIs with
    the same authority whose path segments are the same once the empty ones
    are left out have the same mapped path, whatever their schemes. *)
Theorem uri_to_filename_collisions (slugify : string -> string -> string)
    (self : Downloader) (sch1 sch2 authority : string) (segs1 segs2 : list string)
    (w : world) :
  valid_scheme sch1 -> valid_scheme sch2 ->
  str_forall authority_char authority = true ->
  Forall (fun s => str_forall segment_char s = true) segs1 ->
  Forall (fun s => str_forall segment_char s = true) segs2 ->
  List.filter (fun s => negb (is_empty s)) segs1
  = List.filter (fun s => negb (is_empty s)) segs2 ->
  uri_to_filename slugify self (absolute_uri_of sch1 authority segs1) w
  = uri_to_filename slugify self (absolute_uri_of sch2 authority segs2) w.
Proof.
  intros Hs1 Hs2 Hauth Hsegs1 Hsegs2 Heq.
  rewrite (uri_to_filename_absolute_uri slugify self _ _ _ w Hs1 Hauth Hsegs1).
  rewrite (uri_to_filename_absolute_uri slugify self _ _ _ w Hs2 Hauth Hsegs2).
  now rewrite Heq.
Qed.

(** X5: when the authority sanitizes to the empty text and the path has a
    non-empty segment, the download directory is dropped: the mapped path is
    "/" followed by the sanitized segments, for every download directory. *)
Theorem uri_to_filename_leaves_download_dir (slugify : string -> string -> string)
    (self : Downloader) (sch authority : string) (segs : list string) (w : world) :
  valid_scheme sch ->
  str_forall authority_char authority = true ->
  Forall (fun s => str_forall segment_char s = true) segs ->
  filter_filename_part slugify authority "_" = "" ->
  List.filter (fun s => negb (is_empty s)) segs <> [] ->
  uri_to_filename slugify self (absolute_uri_of sch authority segs) w
  = (Ok ("/" +:+ str_join sep
                   (map (fun p => filter_filename_part slugify p "_")
                      (List.filter (fun s => negb (is_empty s)) segs))), w).
Proof.
  intros Hsch Hauth Hsegs Hempty Hne.
  rewrite (uri_to_filename_absolute_uri slugify self _ _ _ w Hsch Hauth Hsegs).
  destruct (List.filter (fun s => negb (is_empty s)) segs) as [|x l]; [contradiction |].
  cbn [map]. rewrite Hempty, str_join_cons, append_nil_l.
  unfold path_join, sep. now rewrite append_cons, append_nil_l.
Qed.

(** X6: for a URI [scheme://authority/seg1/seg2/...] whose sanitized
    authority is not empty and does not begin with "/", the mapped path is
    the download directory followed directly by the joined sanitized segments
    when the directory is empty or ends with "/", and followed by "/" and the
    joined sanitized segments otherwise; either way it begins with the
    download directory. *)
Theorem uri_to_filename_under_download_dir (slugify : string -> string -> string)
    (self : Downloader) (sch authority : string) (segs : list string) (w : world) :
  valid_scheme sch ->
  str_forall authority_char authority = true ->
  Forall (fun s => str_forall segment_char s = true) segs ->
  filter_filename_part slugify authority "_" <> "" ->
  str_startswith sep (filter_filename_part slugify authority "_") = false ->
  exists filename,
    uri_to_filename slugify self (absolute_uri_of sch authority segs) w = (Ok filename, w)
    /\ filename
       = (if is_empty (_download_dir self) || str_endswith_char "/" (_download_dir self)
          then _download_dir self
               +:+ str_join sep
                     (map (fun p => filter_filename_part slugify p "_")
                        (authority :: List.filter (fun s => negb (is_empty s)) segs))
          else _download_dir self +:+ sep
               +:+ str_join sep
                     (map (fun p => filter_filename_part slugify p "_")
                        (authority :: List.filter (fun s => negb (is_empty s)) segs)))
    /\ str_startswith (_download_dir self) filename = true.
Proof.
  intros Hsch Hauth Hsegs Hne Hstart.
  rewrite (uri_to_filename_absolute_uri slugify self _ _ _ w Hsch Hauth Hsegs).
  eexists. split; [reflexivity |].
  unfold path_join. cbn [map].
  rewrite (startswith_sep_join _ _ Hne), Hstart.
  split; [reflexivity |].
  destruct (is_empty (_download_dir self) || str_endswith_char "/" (_download_dir self));
    apply startswith_app.
Qed.

(** X7: two URIs whose sanitized authorities are not empty and whose
    sanitized segments hold no "/" have the same mapped path only if their
    lists of sanitized segments are equal. *)
Theorem uri_to_filename_same_path (slugify : string -> string -> string)
    (self : Downloader) (uri1 uri2 : string) (parts1 parts2 : ParseResult) (w : world) :
  urlparse uri1 = Ok parts1 -> urlparse uri2 = Ok parts2 ->
  Forall (fun s => str_in "/" s = false) (filtered_parts slugify parts1) ->
  Forall (fun s => str_in "/" s = false) (filtered_parts slugify parts2) ->
  filter_filename_part slugify (netloc parts1) "_" <> "" ->
  filter_filename_part slugify (netloc parts2) "_" <> "" ->
  fst (uri_to_filename slugify self uri1 w) = fst (uri_to_filename slugify self uri2 w) ->
  filtered_parts slugify parts1 = filtered_parts slugify parts2.
Proof.
  intros Hp1 Hp2 Hf1 Hf2 Hn1 Hn2.
  rewrite (uri_to_filename_parsed slugify _ _ _ _ Hp1).
  rewrite (uri_to_filename_parsed slugify _ _ _ _ Hp2).
  cbn [fst]. intros H. apply Ok_inj in H.
  assert (Hstart : forall parts,
            Forall (fun s => str_in "/" s = false) (filtered_parts slugify parts) ->
            filter_filename_part slugify (netloc parts) "_" <> "" ->
            str_startswith sep (str_join sep (filtered_parts slugify parts)) = false).
  { intros parts Hf Hn. unfold filtered_parts, rel_filename_parts in *. cbn [app map] in *.
    rewrite (startswith_sep_join _ _ Hn). apply startswith_sep_no_slash.
    now apply Forall_cons in Hf as [Hh _]. }
  apply path_join_inj in H; [| now apply Hstart..].
  apply str_join_inj in H; try assumption;
    unfold filtered_parts, rel_filename_parts; discriminate.
Qed.

(** ** A URI that does not parse *)

Section UnbalancedBrackets.

Lemma bracketed_authority_char_safe c :
  bracketed_authority_char c = true -> negb (unsafe_url_byte c) = true.
Proof. by_ascii c. Qed.

Lemma bracketed_authority_char_not_delim c :
  bracketed_authority_char c = true -> negb (netloc_delim c) = true.
Proof. by_ascii c. Qed.

Lemma urlparse_unbalanced (sch authority : string) (segs : list string) :
  valid_scheme sch ->
  str_forall bracketed_authority_char authority = true ->
  Forall (fun s => str_forall segment_char s = true) segs ->
  (str_in "[" authority && negb (str_in "]" authority))
  || (str_in "]" authority && negb (str_in "[" authority)) = true ->
  urlparse (absolute_uri_of sch authority segs) = Raise ValueError.
Proof.
  intros Hsch Hauth Hsegs Hbr.
  pose proof (path_of_segments_chars segs Hsegs) as Hpath.
  rewrite urlparse_unfold. unfold absolute_uri_of.
  change (sch +:+ "://" +:+ authority +:+ path_of_segments segs)
    with (sch +:+ String ":" (String "/" (String "/" (authority +:+ path_of_segments segs)))).
  assert (Hid : strip_unsafe
            (sch +:+ String ":" (String "/" (String "/" (authority +:+ path_of_segments segs))))
          = sch +:+ String ":" (String "/" (String "/" (authority +:+ path_of_segments segs)))).
  { destruct sch as [|c sch]; [destruct Hsch |]. destruct Hsch as [Hc Hall].
    rewrite append_cons. apply strip_unsafe_id; [now apply alpha_not_c0 |].
    rewrite <- append_cons, str_forall_app.
    rewrite (str_forall_impl scheme_char _ _ scheme_char_safe Hall).
    simpl. rewrite str_forall_app.
    rewrite (str_forall_impl bracketed_authority_char _ _ bracketed_authority_char_safe Hauth).
    now rewrite (str_forall_impl path_char _ _ path_char_safe Hpath). }
  rewrite Hid, (split_scheme_valid _ _ Hsch).
  change (str_startswith "//" (String "/" (String "/" (authority +:+ path_of_segments segs))))
    with true.
  cbv iota. unfold _splitnetloc. simpl str_drop.
  rewrite str_break_app by apply path_of_segments_head.
  rewrite str_break_none
    by exact (str_forall_impl bracketed_authority_char _ _
                bracketed_authority_char_not_delim Hauth).
  cbn [fst snd]. now rewrite Hbr.
Qed.

End UnbalancedBrackets.

(** X8: a URI whose authority has an opening bracket without a closing one,
    or a closing one without an opening one, does not parse: the mapping
    raises [ValueError], and so does [download_one_file], before any request,
    log record or change of the record and of the files. *)
Theorem download_one_file_unbalanced_brackets (slugify : string -> string -> string)
    (session : network) (self : Downloader) (sch authority : string)
    (segs : list string) (w : world) :
  valid_scheme sch ->
  str_forall bracketed_authority_char authority = true ->
  Forall (fun s => str_forall segment_char s = true) segs ->
  (str_in "[" authority && negb (str_in "]" authority))
  || (str_in "]" authority && negb (str_in "[" authority)) = true ->
  uri_to_filename slugify self (absolute_uri_of sch authority segs) w
  = (Raise ValueError, w)
  /\ download_one_file slugify session self (absolute_uri_of sch authority segs) w
     = (Raise ValueError, w).
Proof.
  intros Hsch Hauth Hsegs Hbr.
  assert (Hu : uri_to_filename slugify self (absolute_uri_of sch authority segs) w
               = (Raise ValueError, w)).
  { unfold uri_to_filename, bind, lift.
    now rewrite (urlparse_unbalanced _ _ _ Hsch Hauth Hsegs Hbr). }
  split; [exact Hu |]. now rewrite download_one_file_eq, Hu.
Qed.

(** ** The size check *)

(** X9: [url_and_file_size_diff] only asks: whatever it returns or raises,
    it has sent exactly one HEAD request for the URI and has changed neither
    the files nor the record; it returns [None] exactly when the request is
    answered without Content-Length, also for a file that does not exist. *)
Theorem url_and_file_size_diff_frame (session : network) (self : Downloader)
    (uri filename : string) (w : world) :
  heap (snd (url_and_file_size_diff session self uri filename w)) = heap w
  /\ fs (snd (url_and_file_size_diff session self uri filename w)) = fs w
  /\ net_log (snd (url_and_file_size_diff session self uri filename w))
     = (net_log w ++ [HEAD uri])%list
  /\ (fst (url_and_file_size_diff session self uri filename w) = Ok None
      <-> http_head session uri = Ok (mkHead None)).
Proof.
  destruct (url_and_file_size_diff session self uri filename w) as [out w'] eqn:H.
  pose proof (size_diff_spec _ _ _ _ _ _ _ H) as (Hh & Hfs & Hlog & Hout).
  cbn [fst snd]. repeat split; try assumption.
  - intros ->. exact Hout.
  - intros Hhead. rewrite (size_diff_no_header _ _ _ _ _ Hhead) in H. congruence.
Qed.

(** X10: an existing file and a Content-Length that [int] refuses: the
    call raises [ValueError] once the HEAD request is answered; no GET is
    sent, the file and the record are as before. *)
Theorem download_one_file_bad_content_length (slugify : string -> string -> string)
    (session : network) (self : Downloader) (uri filename : string) (w : world)
    (header_size_str : string) c :
  uri_to_filename slugify self uri w = (Ok filename, w) ->
  OrderedDict.get (record_of self w) uri <> Some filename ->
  fs w !! filename = Some (File c) ->
  http_head session uri = Ok (mkHead (Some header_size_str)) ->
  py_int header_size_str = Raise ValueError ->
  download_one_file slugify session self uri w
  = (Raise ValueError,
     mkWorld (heap w) (fs w) (net_log w ++ [HEAD uri]) (log_records w)).
Proof.
  intros Hu Hget Hfile Hhead Hint.
  rewrite download_one_file_eq, Hu.
  rewrite bool_decide_eq_false_2 by congruence.
  assert (isfile (fs w) filename = true) as -> by (apply isfile_lookup; eauto).
  unfold url_and_file_size_diff. run_monad. rewrite Hhead.
  cbn [content_length_header]. run_monad. now rewrite Hint.
Qed.

(** X11: an existing file and a HEAD request that fails: what the request
    raises reaches the caller; no GET is sent, the file and the record are as
    before. *)
Theorem download_one_file_head_fails (slugify : string -> string -> string)
    (session : network) (self : Downloader) (uri filename : string) (w : world)
    (e : exn) c :
  uri_to_filename slugify self uri w = (Ok filename, w) ->
  OrderedDict.get (record_of self w) uri <> Some filename ->
  fs w !! filename = Some (File c) ->
  http_head session uri = Raise e ->
  download_one_file slugify session self uri w
  = (Raise e, mkWorld (heap w) (fs w) (net_log w ++ [HEAD uri]) (log_records w)).
Proof.
  intros Hu Hget Hfile Hhead.
  rewrite download_one_file_eq, Hu.
  rewrite bool_decide_eq_false_2 by congruence.
  assert (isfile (fs w) filename = true) as -> by (apply isfile_lookup; eauto).
  unfold url_and_file_size_diff. run_monad. now rewrite Hhead.
Qed.


(** ** Creation of the directories *)

Section MakedirsFacts.










Lemma open_wb_new (filename : string) (fs : filesystem) :
  fs !! filename = None ->
  is_empty filename = false ->
  str_endswith_char "/" filename = false ->
  isdir fs (dirname filename) = true ->
  open_wb filename fs = Ok (<[filename := File []]> fs).
Proof.
  intros Hnone Hne Hend Hdir. unfold open_wb.
  rewrite Hnone, Hne, Hend, Hdir. now rewrite orb_true_r.
Qed.

End MakedirsFacts.


(** ** What the retrieval does not look at, and where it stops *)

Section RetrievalFacts.

Variable slugify : string -> string -> string.

Lemma retrieve_same_body (s1 s2 : network) (self : Downloader) (uri filename : string)
    (w : world) :
  match http_get s1 uri, http_get s2 uri with
  | Ok r1, Ok r2 => content r1 = content r2
  | Raise e1, Raise e2 => e1 = e2
  | _, _ => False
  end ->
  _retrieve_uri_to_file s1 self uri filename w
  = _retrieve_uri_to_file s2 self uri filename w.
Proof.
  unfold _retrieve_uri_to_file, try_get, iter_content. run_monad.
  destruct (http_get s1 uri) as [r1|e1], (http_get s2 uri) as [r2|e2];
    try contradiction.
  - intros ->. reflexivity.
  - intros ->. reflexivity.
Qed.

Lemma open_wb_dir (filename : string) (fs : filesystem) :
  fs !! filename = Some Dir -> open_wb filename fs = Raise IsADirectoryError.
Proof. intros H. unfold open_wb. now rewrite H. Qed.

End RetrievalFacts.

(** X14: the status code of the answer is never looked at: two servers that
    answer the HEAD alike and send the same body, with whatever status codes,
    lead a call to the same result and the same world; the body of an error
    answer is stored and recorded like any other. *)
Theorem download_one_file_ignores_status (slugify : string -> string -> string)
    (session1 session2 : network) (self : Downloader) (uri : string) (w : world) :
  http_head session1 uri = http_head session2 uri ->
  match http_get session1 uri, http_get session2 uri with
  | Ok r1, Ok r2 => content r1 = content r2
  | Raise e1, Raise e2 => e1 = e2
  | _, _ => False
  end ->
  download_one_file slugify session1 self uri w
  = download_one_file slugify session2 self uri w.
Proof.
  intros Hhead Hget.
  assert (Hsd : forall filename w1,
            url_and_file_size_diff session1 self uri filename w1
            = url_and_file_size_diff session2 self uri filename w1)
    by (intros; unfold url_and_file_size_diff; now rewrite Hhead).
  assert (Hfetch : forall filename w1,
            fetch_steps slugify session1 self uri filename w1
            = fetch_steps slugify session2 self uri filename w1).
  { intros filename w1. unfold fetch_steps, bind.
    destruct (os_path_isdir (dirname filename) w1) as [[b|e] w2]; [|reflexivity].
    destruct ((if b then ret tt else os_makedirs (dirname filename)) w2)
      as [[[]|e] w3]; [|reflexivity].
    now rewrite (retrieve_same_body session1 session2 self uri filename w3 Hget). }
  rewrite !download_one_file_eq.
  destruct (uri_to_filename slugify self uri w) as [[filename|e] w1]; [|reflexivity].
  destruct (bool_decide _); [reflexivity |].
  destruct (isfile (fs w1) filename); [|apply Hfetch].
  rewrite Hsd.
  destruct (url_and_file_size_diff session2 self uri filename w1) as [[sd|e] w2];
    [|reflexivity].
  destruct (bool_decide (sd = Some 0%Z)); [reflexivity | apply Hfetch].
Qed.

(** X15: a mapped path that names a directory, itself in a directory that
    exists: the GET is sent all the same, then opening the path raises
    [IsADirectoryError], for an answer and for a failed request alike;
    nothing is written and nothing recorded. *)
Theorem download_one_file_path_is_directory (slugify : string -> string -> string)
    (session : network) (self : Downloader) (uri filename : string) (w : world) :
  uri_to_filename slugify self uri w = (Ok filename, w) ->
  OrderedDict.get (record_of self w) uri <> Some filename ->
  fs w !! filename = Some Dir ->
  isdir (fs w) (dirname filename) = true ->
  (exists resp, http_get session uri = Ok resp)
  \/ http_get session uri = Raise RequestException ->
  exists w',
    download_one_file slugify session self uri w = (Raise IsADirectoryError, w')
    /\ fs w' = fs w /\ heap w' = heap w
    /\ net_log w' = (net_log w ++ [GET uri])%list.
Proof.
  intros Hu Hget Hdirnode Hdir Hanswer.
  rewrite download_one_file_eq, Hu.
  rewrite bool_decide_eq_false_2 by congruence.
  assert (isfile (fs w) filename = false) as -> by (unfold isfile; now rewrite Hdirnode).
  rewrite fetch_steps_dir_exists by exact Hdir.
  unfold _retrieve_uri_to_file, try_get. run_monad.
  destruct Hanswer as [[resp ->]| ->]; run_monad;
    rewrite (open_wb_dir _ _ Hdirnode); eexists; (split; [reflexivity |]);
    cbn [heap fs net_log]; auto.
Qed.

(** X16: a mapped path whose directory name is taken by a regular file: the
    creation of the directory raises before any request is sent; the world is
    left exactly as it was. *)
Theorem download_one_file_directory_is_file (slugify : string -> string -> string)
    (session : network) (self : Downloader) (uri filename : string) (w : world) c :
  uri_to_filename slugify self uri w = (Ok filename, w) ->
  OrderedDict.get (record_of self w) uri <> Some filename ->
  isfile (fs w) filename = false ->
  is_empty (dirname filename) = false ->
  fs w !! dirname filename = Some (File c) ->
  exists e,
    download_one_file slugify session self uri w = (Raise e, w)
    /\ (e = FileExistsError \/ e = NotADirectoryError).
Proof.
  intros Hu Hget Hnofile Hdne Hparent.
  rewrite download_one_file_eq, Hu.
  rewrite bool_decide_eq_false_2 by congruence.
  rewrite Hnofile. unfold fetch_steps. run_monad.
  assert (isdir (fs w) (dirname filename) = false) as ->
    by (unfold isdir; now rewrite Hparent).
  assert (Hmk : makedirs (dirname filename) (fs w) = Raise FileExistsError
                \/ makedirs (dirname filename) (fs w) = Raise NotADirectoryError).
  { unfold makedirs. rewrite Hdne.
    destruct (make_intermediate (ancestors (dirname filename)) (fs w)) as [fs1|e] eqn:Hm.
    - rewrite (make_intermediate_keeps _ _ _ _ _ Hm Hparent). now left.
    - right. clear -Hm. revert Hm. generalize (fs w).
      induction (ancestors (dirname filename)) as [|d ds IH]; intros m; simpl;
        [discriminate |].
      destruct (m !! d) as [[c'|]|]; [now intros [= <-] | apply IH | apply IH]. }
  destruct Hmk as [-> | ->]; eexists; (split; [reflexivity |]); auto.
Qed.

(** ** What a call may touch *)

Section FrameFacts.

Variable slugify : string -> string -> string.

Lemma make_intermediate_frame (ds : list string) (fs fs1 : filesystem) :
  make_intermediate ds fs = Ok fs1 ->
  (forall p n, fs !! p = Some n -> fs1 !! p = Some n)
  /\ (forall p, fs1 !! p = fs !! p \/ fs1 !! p = Some Dir).
Proof.
  revert fs. induction ds as [|d ds IH]; intros fs; simpl.
  - intros [= <-]. auto.
  - destruct (fs !! d) as [[c|]|] eqn:Hd; [discriminate | apply IH |].
    intros Hm. apply IH in Hm as [Hkept Hnew]. split.
    + intros p n Hp. apply Hkept. rewrite lookup_insert_ne; [exact Hp | congruence].
    + intros p. destruct (Hnew p) as [H|H]; [|now right].
      destruct (decide (d = p)) as [->|Hne].
      * right. now rewrite lookup_insert_eq in H.
      * left. now rewrite lookup_insert_ne in H.
Qed.

Lemma makedirs_frame (name : string) (fs fs' : filesystem) :
  makedirs name fs = Ok fs' ->
  (forall p n, fs !! p = Some n -> fs' !! p = Some n)
  /\ (forall p, fs' !! p = fs !! p \/ fs' !! p = Some Dir).
Proof.
  unfold makedirs. destruct (is_empty name); [discriminate |].
  destruct (make_intermediate (ancestors name) fs) as [fs1|e] eqn:Hm; [|discriminate].
  apply make_intermediate_frame in Hm as [Hkept Hnew].
  destruct (fs1 !! name) eqn:Hn; [discriminate |]. intros [= <-]. split.
  - intros p n Hp. rewrite lookup_insert_ne; [now apply Hkept | ].
    intros <-. apply Hkept in Hp. congruence.
  - intros p. destruct (decide (name = p)) as [->|Hne].
    + right. apply lookup_insert_eq.
    + rewrite lookup_insert_ne by exact Hne. apply Hnew.
Qed.

Lemma open_wb_not_dir (filename : string) (fs fs' : filesystem) :
  open_wb filename fs = Ok fs' -> fs !! filename <> Some Dir.
Proof. unfold open_wb. destruct (fs !! filename) as [[c|]|]; congruence. Qed.

Lemma retrieve_frame (session : network) (self : Downloader) (uri filename : string)
    (w w' : world) (out : result unit) :
  _retrieve_uri_to_file session self uri filename w = (out, w') ->
  fs w' = fs w
  \/ (exists c', fs w' = <[filename := File c']> (fs w)
                 /\ fs w !! filename <> Some Dir).
Proof.
  destruct (open_wb filename (fs w)) as [fs2|e0] eqn:Hopen.
  - pose proof (open_wb_not_dir _ _ _ Hopen) as Hnd.
    destruct (http_get session uri) as [resp|e] eqn:Hget.
    + rewrite (retrieve_returns _ _ _ _ _ _ _ Hget Hopen). intros [= <- <-].
      right. now exists (content resp).
    + unfold _retrieve_uri_to_file, try_get. run_monad. rewrite Hget.
      destruct e; try (intros [= <- <-]; now left).
      run_monad. rewrite Hopen. pose proof (open_wb_ok _ _ _ Hopen) as ->.
      intros [= <- <-]. right. now exists [].
  - unfold _retrieve_uri_to_file, try_get. run_monad.
    destruct (http_get session uri) as [resp|e].
    + run_monad. rewrite Hopen. intros [= <- <-]. now left.
    + destruct e; try (intros [= <- <-]; now left).
      run_monad. rewrite Hopen. intros [= <- <-]. now left.
Qed.

Lemma fetch_steps_frame (session : network) (self : Downloader) (uri filename : string)
    (w w' : world) (out : result string) :
  fetch_steps slugify session self uri filename w = (out, w') ->
  (net_log w' = net_log w \/ net_log w' = (net_log w ++ [GET uri])%list)
  /\ exists fs1,
       (forall p n, fs w !! p = Some n -> fs1 !! p = Some n)
       /\ (forall p, fs1 !! p = fs w !! p \/ fs1 !! p = Some Dir)
       /\ (fs w' = fs1
           \/ (exists c', fs w' = <[filename := File c']> fs1
                          /\ fs1 !! filename <> Some Dir)).
Proof.
  unfold fetch_steps. run_monad.
  destruct (isdir (fs w) (dirname filename)).
  - destruct (_retrieve_uri_to_file session self uri filename w) as [o w2] eqn:Hr.
    pose proof (retrieve_spec _ _ _ _ _ _ _ Hr) as (_ & _ & Hlog & _).
    apply retrieve_frame in Hr.
    destruct o as [[]|e]; intros [= <- <-]; cbn [fs net_log];
      (split; [now right |]); exists (fs w); auto.
  - destruct (makedirs (dirname filename) (fs w)) as [fs1|e] eqn:Hmk.
    + run_monad.
      match goal with
      | |- context [_retrieve_uri_to_file session self uri filename ?w1] =>
          destruct (_retrieve_uri_to_file session self uri filename w1) as [o w2] eqn:Hr
      end.
      pose proof (retrieve_spec _ _ _ _ _ _ _ Hr) as (_ & _ & Hlog & _).
      apply retrieve_frame in Hr. cbn [fs net_log] in *.
      apply makedirs_frame in Hmk as [Hkept Hnew].
      destruct o as [[]|e]; intros [= <- <-]; cbn [fs net_log];
        (split; [now right |]); exists fs1; auto.
    + intros [= <- <-]. split; [now left |]. exists (fs w). auto.
Qed.

Lemma download_one_file_frame (session : network) (self : Downloader) (uri : string)
    (w w' : world) (out : result string) :
  download_one_file slugify session self uri w = (out, w') ->
  (exists l, net_log w' = (net_log w ++ l)%list
             /\ (l = [] \/ l = [HEAD uri] \/ l = [GET uri] \/ l = [HEAD uri; GET uri]))
  /\ (fs w' = fs w
      \/ exists filename fs1,
           uri_to_filename slugify self uri w = (Ok filename, w)
           /\ (forall p n, fs w !! p = Some n -> fs1 !! p = Some n)
           /\ (forall p, fs1 !! p = fs w !! p \/ fs1 !! p = Some Dir)
           /\ (fs w' = fs1
               \/ (exists c', fs w' = <[filename := File c']> fs1
                              /\ fs1 !! filename <> Some Dir))).
Proof.
  rewrite download_one_file_eq.
  destruct (uri_to_filename slugify self uri w) as [[filename|e] w1] eqn:Hu;
    apply uri_to_filename_result in Hu as [-> Hu].
  2:{ intros [= <- <-]. split; [exists []; rewrite app_nil_r; auto | now left]. }
  destruct (bool_decide _).
  { intros [= <- <-]. cbn [snd logging fs net_log].
    split; [exists []; rewrite app_nil_r; auto | now left]. }
  destruct (isfile (fs w) filename).
  2:{ intros Hf. apply fetch_steps_frame in Hf as [Hlog (fs1 & Hkept & Hnew & Hfs)].
      split.
      - destruct Hlog as [-> | ->]; [exists []; rewrite app_nil_r; auto | eauto 6].
      - right. exists filename, fs1. auto. }
  destruct (url_and_file_size_diff session self uri filename w) as [[sd|e] w2] eqn:Hsd;
    apply size_diff_spec in Hsd as (Hh & Hfs2 & Hnl & _).
  2:{ intros [= <- <-]. split; [eauto 6 | now left]. }
  destruct (bool_decide (sd = Some 0%Z)).
  { intros [= <- <-]. cbn [fs net_log]. split; [eauto 6 | now left]. }
  intros Hf. apply fetch_steps_frame in Hf as [Hlog (fs1 & Hkept & Hnew & Hfs)].
  assert (Hw3 : forall w3,
            w3 = (if bool_decide (sd <> None)
                  then snd (logging (LogWarning "File %s and URI %s size mismatch"
                                       [filename; uri]) w2)
                  else w2) ->
            fs w3 = fs w /\ net_log w3 = (net_log w ++ [HEAD uri])%list).
  { intros w3 ->. destruct (bool_decide (sd <> None)); cbn [snd logging fs net_log]; auto. }
  destruct (Hw3 _ eq_refl) as [Hfs3 Hnl3]. rewrite Hfs3 in *. rewrite Hnl3 in Hlog.
  split.
  - destruct Hlog as [-> | ->]; [eauto 6 |].
    exists [HEAD uri; GET uri]. rewrite <- app_assoc. auto 6.
  - right. exists filename, fs1. auto.
Qed.

Lemma download_one_file_heap (session : network) (self : Downloader) (uri : string)
    (w w' : world) (out : result string) (l : nat) :
  download_one_file slugify session self uri w = (out, w') ->
  l <> _downloaded_files_by_uri self ->
  heap w' !! l = heap w !! l.
Proof.
  intros H Hl. apply download_one_file_cases in H as [_ H].
  destruct out as [p|e]; [|now rewrite H].
  destruct H as [_ [(_ & -> & _)|[-> _]]]; [reflexivity |].
  now rewrite lookup_insert_ne.
Qed.

End FrameFacts.

(** X17: a call sends at most two requests, both for its own URI: nothing, a
    HEAD, a GET, or a HEAD followed by a GET. *)
Theorem download_one_file_requests (slugify : string -> string -> string)
    (session : network) (self : Downloader) (uri : string) (w : world) :
  exists l,
    net_log (snd (download_one_file slugify session self uri w)) = (net_log w ++ l)%list
    /\ (l = [] \/ l = [HEAD uri] \/ l = [GET uri] \/ l = [HEAD uri; GET uri]).
Proof.
  destruct (download_one_file slugify session self uri w) as [out w'] eqn:H.
  now apply download_one_file_frame in H as [Hlog _].
Qed.

(** X18: a call for a URI whose mapped path is plain, on a plain disk,
    removes nothing and writes to one path only: every file or directory that
    was on disk is still there, with the content it had unless it is the file
    at the mapped path of the URI; and a file that is on disk afterwards was
    there before or is the file at the mapped path. *)
Theorem download_one_file_touches_one_file (slugify : string -> string -> string)
    (session : network) (self : Downloader) (uri filename : string) (w w' : world)
    (out : result string) :
  uri_to_filename slugify self uri w = (Ok filename, w) ->
  plain_path filename = true ->
  plain_disk (is_absolute filename) (fs w) = true ->
  download_one_file slugify session self uri w = (out, w') ->
  (forall p n,
     fs w !! p = Some n ->
     fs w' !! p = Some n
     \/ (p = filename
         /\ exists c c', n = File c /\ fs w' !! p = Some (File c')))
  /\ (forall p c,
        fs w' !! p = Some (File c) ->
        (exists c0, fs w !! p = Some (File c0)) \/ p = filename).
Proof.
  intros Hmap _ _ H. apply download_one_file_frame in H as [_ [Hfs|Hfs]].
  { rewrite Hfs. split; [auto | eauto]. }
  destruct Hfs as (filename' & fs1 & Hu & Hkept & Hnew & Hfs).
  rewrite Hmap in Hu. injection Hu as <-. split.
  - intros p n Hp. pose proof (Hkept _ _ Hp) as Hp1.
    destruct Hfs as [-> | (c' & -> & Hnd)]; [now left |].
    destruct (decide (filename = p)) as [<-|Hne].
    + right. split; [reflexivity |]. destruct n as [c|]; [|congruence].
      exists c, c'. split; [reflexivity | apply lookup_insert_eq].
    + left. now rewrite lookup_insert_ne.
  - intros p c Hp.
    assert (Hfrom1 : fs1 !! p = Some (File c) -> exists c0, fs w !! p = Some (File c0)).
    { intros H1. destruct (Hnew p) as [H|H]; [|congruence]. rewrite H in H1. eauto. }
    destruct Hfs as [Hfs | (c' & Hfs & Hnd)]; rewrite Hfs in Hp; [left; auto |].
    destruct (decide (filename = p)) as [<-|Hne]; [now right |].
    rewrite lookup_insert_ne in Hp by exact Hne. left. auto.
Qed.

(** ** The record over a session *)

Section RecordFacts.

Variable slugify : string -> string -> string.

Lemma keys_setitem_in (d : odict) (k v : string) :
  In k (keys d) -> keys (setitem d k v) = keys d.
Proof.
  unfold keys. induction d as [|[k' v'] d IH]; simpl; [contradiction |].
  destruct (String.eqb_spec k' k) as [->|Hne]; [reflexivity |].
  intros [H|H]; [contradiction |]. simpl. now rewrite IH.
Qed.

Lemma keys_setitem_notin (d : odict) (k v : string) :
  ~ In k (keys d) -> keys (setitem d k v) = (keys d ++ [k])%list.
Proof.
  unfold keys. induction d as [|[k' v'] d IH]; simpl; [reflexivity |].
  intros Hnot. destruct (String.eqb_spec k' k) as [->|Hne]; [tauto |].
  simpl. rewrite IH; [reflexivity | tauto].
Qed.

Lemma keys_setitem (d : odict) (k v : string) :
  List.NoDup (keys d) ->
  List.NoDup (keys (setitem d k v))
  /\ (exists more, keys (setitem d k v) = (keys d ++ more)%list)
  /\ (forall x, In x (keys (setitem d k v)) -> In x (keys d) \/ x = k).
Proof.
  intros Hnd. destruct (in_dec string_dec k (keys d)) as [Hin|Hnot].
  - rewrite (keys_setitem_in _ _ _ Hin). split; [exact Hnd |].
    split; [exists []; now rewrite app_nil_r | auto].
  - rewrite (keys_setitem_notin _ _ _ Hnot). split; [|split].
    + apply List.NoDup_app; [exact Hnd | repeat constructor; intros [] |].
      intros x Hx [<-|[]]. contradiction.
    + now exists [k].
    + intros x [Hx|[<-|[]]]%in_app_or; auto.
Qed.

Lemma record_step (session : network) (self : Downloader) (uri : string)
    (w w' : world) (out : result string) :
  download_one_file slugify session self uri w = (out, w') ->
  record_of self w' = record_of self w
  \/ exists p, record_of self w' = setitem (record_of self w) uri p.
Proof.
  intros H. apply download_one_file_cases in H as [_ H].
  destruct out as [p|e]; [|left; now apply record_of_heap].
  destruct H as [_ [(_ & Hheap & _)|[Hheap _]]].
  - left. now apply record_of_heap.
  - right. exists p. now apply record_of_insert in Hheap.
Qed.

Lemma run_heap (self : Downloader) (calls : list (network * string)) (w : world)
    (l : nat) :
  l <> _downloaded_files_by_uri self ->
  heap (run slugify self calls w) !! l = heap w !! l.
Proof.
  intros Hl. revert w. induction calls as [|[session uri] calls IH]; intros w; simpl;
    [reflexivity |].
  rewrite IH.
  destruct (download_one_file slugify session self uri w) as [out w'] eqn:H.
  exact (download_one_file_heap slugify _ _ _ _ _ _ _ H Hl).
Qed.

End RecordFacts.

(** X19: over a session the keys of the record stay without repetition and
    in insertion order: the keys before are a prefix of the keys after, and
    every new key is the URI of one of the calls. *)
Theorem record_keys_grow (slugify : string -> string -> string) (self : Downloader)
    (calls : list (network * string)) (w : world) :
  List.NoDup (keys (record_of self w)) ->
  List.NoDup (keys (record_of self (run slugify self calls w)))
  /\ (exists more,
        keys (record_of self (run slugify self calls w))
        = (keys (record_of self w) ++ more)%list)
  /\ (forall k,
        In k (keys (record_of self (run slugify self calls w))) ->
        In k (keys (record_of self w)) \/ exists session, In (session, k) calls).
Proof.
  revert w. induction calls as [|[session uri] calls IH]; intros w Hnd; simpl.
  - split; [exact Hnd |]. split; [exists []; now rewrite app_nil_r | auto].
  - destruct (download_one_file slugify session self uri w) as [out w'] eqn:H.
    cbn [snd].
    assert (Hstep : List.NoDup (keys (record_of self w'))
                    /\ (exists more, keys (record_of self w')
                                     = (keys (record_of self w) ++ more)%list)
                    /\ (forall x, In x (keys (record_of self w')) ->
                                  In x (keys (record_of self w)) \/ x = uri)).
    { destruct (record_step slugify _ _ _ _ _ _ H) as [-> | [p ->]].
      - split; [exact Hnd |]. split; [exists []; now rewrite app_nil_r | auto].
      - now apply keys_setitem. }
    destruct Hstep as (Hnd' & [more1 Hpre1] & Hnew1).
    destruct (IH w' Hnd') as (Hnd2 & [more2 Hpre2] & Hnew2).
    split; [exact Hnd2 |]. split.
    + exists (more1 ++ more2)%list. now rewrite Hpre2, Hpre1, <- app_assoc.
    + intros k Hk. destruct (Hnew2 k Hk) as [Hk1|[s Hs]].
      * destruct (Hnew1 k Hk1) as [Hk0| ->]; [now left |].
        right. exists session. now left.
      * right. exists s. now right.
Qed.

(** X20: two downloaders do not share their records: each [__init__] makes
    a new empty dictionary, and whatever one downloader downloads, the record
    of the other and every other object on the heap stay as they are. *)
Theorem downloaders_have_own_records (slugify : string -> string -> string)
    (dir1 dir2 : string) (n1 n2 : Z) (w : world) (calls : list (network * string)) :
  exists self1 self2 w1 w2,
    __init__ dir1 n1 w = (Ok self1, w1)
    /\ __init__ dir2 n2 w1 = (Ok self2, w2)
    /\ _downloaded_files_by_uri self1 <> _downloaded_files_by_uri self2
    /\ record_of self1 w2 = [] /\ record_of self2 w2 = []
    /\ record_of self2 (run slugify self1 calls w2) = []
    /\ (forall l, l <> _downloaded_files_by_uri self1 ->
                  heap (run slugify self1 calls w2) !! l = heap w2 !! l).
Proof.
  set (l1 := base.fresh (dom (heap w))).
  set (h1 := <[l1 := []]> (heap w)).
  set (l2 := base.fresh (dom h1)).
  assert (Hne : l1 <> l2).
  { intros Heq. pose proof (is_fresh (dom h1)) as Hfresh. fold l2 in Hfresh.
    apply Hfresh. rewrite <- Heq. unfold h1. rewrite dom_insert_L. set_solver. }
  exists (mkDownloader dir1 l1 n1), (mkDownloader dir2 l2 n2),
    (mkWorld h1 (fs w) (net_log w) (log_records w)),
    (mkWorld (<[l2 := []]> h1) (fs w) (net_log w) (log_records w)).
  split; [reflexivity |]. split; [reflexivity |]. split; [exact Hne |].
  assert (Hrec2 : record_of (mkDownloader dir2 l2 n2)
                    (mkWorld (<[l2 := []]> h1) (fs w) (net_log w) (log_records w)) = [])
    by (unfold record_of, deref; cbn; now rewrite lookup_insert_eq).
  split.
  { unfold record_of, deref. cbn. rewrite lookup_insert_ne by congruence.
    unfold h1. now rewrite lookup_insert_eq. }
  split; [exact Hrec2 |]. split.
  - unfold record_of, deref in *. cbn [_downloaded_files_by_uri] in *.
    rewrite (run_heap slugify (mkDownloader dir1 l1 n1) calls _ l2) by (cbn; congruence).
    exact Hrec2.
  - intros l Hl. now apply run_heap.
Qed.

(** X21: a call that returns has the mapped path of its URI as result and
    leaves the URI recorded with it; whatever its outcome, a call changes the
    entry of no other URI. *)
Theorem download_one_file_record_effect (slugify : string -> string -> string)
    (session : network) (self : Downloader) (uri : string) (w w' : world)
    (out : result string) :
  download_one_file slugify session self uri w = (out, w') ->
  (forall p, out = Ok p ->
             uri_to_filename slugify self uri w = (Ok p, w)
             /\ OrderedDict.get (record_of self w') uri = Some p)
  /\ (forall u, u <> uri ->
                OrderedDict.get (record_of self w') u
                = OrderedDict.get (record_of self w) u).
Proof.
  intros H. split.
  - intros p ->. split.
    + now apply download_one_file_cases in H as [_ [Hu _]].
    + exact (download_one_file_records slugify _ _ _ _ _ _ H).
  - intros u Hu. destruct (record_step slugify _ _ _ _ _ _ H) as [-> | [p ->]];
      [reflexivity |].
    apply get_setitem_ne. congruence.
Qed.

(** X22: on a plain disk, when no file exists at the mapped path, which is
    plain and lies in an existing directory, and the GET fails, the code goes
    on to the write step as well: an empty file is created, an
    [UnboundLocalError] reaches the caller, nothing is recorded. *)
Theorem download_one_file_failed_get_creates_file (slugify : string -> string -> string)
    (session : network) (self : Downloader) (uri filename : string) (w : world) :
  uri_to_filename slugify self uri w = (Ok filename, w) ->
  plain_path filename = true ->
  plain_disk (is_absolute filename) (fs w) = true ->
  OrderedDict.get (record_of self w) uri <> Some filename ->
  fs w !! filename = None ->
  is_empty filename = false ->
  str_endswith_char "/" filename = false ->
  isdir (fs w) (dirname filename) = true ->
  http_get session uri = Raise RequestException ->
  download_one_file slugify session self uri w
  = (Raise UnboundLocalError,
     mkWorld (heap w) (<[filename := File []]> (fs w))
       (net_log w ++ [GET uri])
       (log_records w
        ++ [LogInfo "Downloading %s to %s" [uri; filename];
            LogException RequestException])).
Proof.
  intros Hu _ _ Hget Hnone Hne Hend Hdir Hfail.
  rewrite download_one_file_eq, Hu.
  rewrite bool_decide_eq_false_2 by congruence.
  assert (isfile (fs w) filename = false) as -> by (unfold isfile; now rewrite Hnone).
  rewrite fetch_steps_dir_exists by exact Hdir.
  now rewrite (retrieve_get_fails _ _ _ _ _ _ Hfail (open_wb_new _ _ Hnone Hne Hend Hdir)).
Qed.

(** ** A session as a whole *)

Section SessionFacts.

Variable slugify : string -> string -> string.

Lemma download_one_file_keeps_kinds (session : network) (self : Downloader)
    (uri : string) (w : world) (p : string) :
  (isfile (fs w) p = true ->
   isfile (fs (snd (download_one_file slugify session self uri w))) p = true)
  /\ (isdir (fs w) p = true ->
      isdir (fs (snd (download_one_file slugify session self uri w))) p = true).
Proof.
  destruct (download_one_file slugify session self uri w) as [out w'] eqn:H.
  cbn [snd]. apply download_one_file_frame in H as [_ [Hfs|Hfs]];
    [rewrite Hfs; auto |].
  destruct Hfs as (filename & fs1 & _ & Hkept & _ & Hfs).
  assert (Hnode : forall n, fs w !! p = Some n ->
                    fs w' !! p = Some n
                    \/ exists c c', n = File c /\ fs w' !! p = Some (File c')).
  { intros n Hp. pose proof (Hkept _ _ Hp) as Hp1.
    destruct Hfs as [-> | (c' & -> & Hnd)]; [now left |].
    destruct (decide (filename = p)) as [<-|Hne].
    - right. destruct n as [c|]; [|congruence].
      exists c, c'. split; [reflexivity | apply lookup_insert_eq].
    - left. now rewrite lookup_insert_ne. }
  unfold isfile, isdir. split.
  - destruct (fs w !! p) as [[c|]|] eqn:Hp; try discriminate. intros _.
    destruct (Hnode _ eq_refl) as [-> | (c0 & c' & _ & ->)]; reflexivity.
  - destruct (fs w !! p) as [[c|]|] eqn:Hp; try discriminate. intros _.
    destruct (Hnode _ eq_refl) as [-> | (c0 & c' & Hc & _)]; [reflexivity | discriminate].
Qed.

End SessionFacts.

(** X23: a session removes nothing: a path that names a file stays a file
    and a path that names a directory stays a directory through any sequence
    of calls, whatever their outcomes. *)
Theorem run_keeps_files_and_directories (slugify : string -> string -> string)
    (self : Downloader) (calls : list (network * string)) (w : world) (p : string) :
  (isfile (fs w) p = true -> isfile (fs (run slugify self calls w)) p = true)
  /\ (isdir (fs w) p = true -> isdir (fs (run slugify self calls w)) p = true).
Proof.
  revert w. induction calls as [|[session uri] calls IH]; intros w; simpl; [auto |].
  destruct (download_one_file_keeps_kinds slugify session self uri w p) as [Hf Hd].
  destruct (IH (snd (download_one_file slugify session self uri w))) as [Hf' Hd'].
  auto.
Qed.

(** X24: over a session the requests sent are appended to those sent before,
    at most two for each call, each one a HEAD or a GET for the URI of one of
    the calls. *)
Theorem run_requests (slugify : string -> string -> string)
    (self : Downloader) (calls : list (network * string)) (w : world) :
  exists l,
    net_log (run slugify self calls w) = (net_log w ++ l)%list
    /\ (length l <= 2 * length calls)%nat
    /\ (forall rq, In rq l ->
                   exists session u,
                     In (session, u) calls /\ (rq = HEAD u \/ rq = GET u)).
Proof.
  revert w. induction calls as [|[session uri] calls IH]; intros w; simpl.
  - exists []. rewrite app_nil_r. split; [reflexivity |]. split; [simpl; lia |].
    intros rq [].
  - destruct (download_one_file slugify session self uri w) as [out w'] eqn:H.
    cbn [snd]. apply download_one_file_frame in H as [(l1 & Hl1 & Hcases) _].
    destruct (IH w') as (l2 & Hl2 & Hlen & Hin).
    exists (l1 ++ l2)%list. split; [now rewrite Hl2, Hl1, <- app_assoc |]. split.
    + rewrite length_app.
      assert (length l1 <= 2)%nat
        by (destruct Hcases as [-> | [-> | [-> | ->]]]; simpl; lia).
      lia.
    + intros rq [Hrq|Hrq]%in_app_or.
      * exists session, uri. split; [now left |].
        destruct Hcases as [-> | [-> | [-> | ->]]]; simpl in Hrq; intuition auto.
      * destruct (Hin rq Hrq) as (s & u & Hu & Hkind).
        exists s, u. split; [now right | exact Hkind].
Qed.

(** ** A URI without authority *)

Section OpaqueUriFacts.

Lemma urlparse_opaque_uri (sch seg0 : string) (segs : list string) :
  valid_scheme sch ->
  str_forall segment_char seg0 = true ->
  is_empty seg0 = false ->
  Forall (fun s => str_forall segment_char s = true) segs ->
  urlparse (opaque_uri_of sch seg0 segs)
  = Ok (mkParseResult (str_lower sch) "" (seg0 +:+ path_of_segments segs) "" "" "").
Proof.
  intros Hsch Hseg0 Hne Hsegs.
  pose proof (path_of_segments_chars segs Hsegs) as Hpath.
  assert (Hchars : str_forall path_char (seg0 +:+ path_of_segments segs) = true).
  { rewrite str_forall_app, Hpath, andb_true_r.
    exact (str_forall_impl segment_char _ _ segment_char_path_char Hseg0). }
  rewrite urlparse_unfold. unfold opaque_uri_of.
  change (sch +:+ ":" +:+ seg0 +:+ path_of_segments segs)
    with (sch +:+ String ":" (seg0 +:+ path_of_segments segs)).
  assert (Hid : strip_unsafe (sch +:+ String ":" (seg0 +:+ path_of_segments segs))
                = sch +:+ String ":" (seg0 +:+ path_of_segments segs)).
  { destruct sch as [|c sch]; [destruct Hsch |]. destruct Hsch as [Hc Hall].
    rewrite append_cons. apply strip_unsafe_id; [now apply alpha_not_c0 |].
    rewrite <- append_cons, str_forall_app.
    rewrite (str_forall_impl scheme_char _ _ scheme_char_safe Hall).
    simpl. now rewrite (str_forall_impl path_char _ _ path_char_safe Hchars). }
  rewrite Hid, (split_scheme_valid _ _ Hsch).
  assert (Hstart : str_startswith "//" (seg0 +:+ path_of_segments segs) = false).
  { destruct seg0 as [|c seg0]; [discriminate Hne |].
    simpl in Hseg0. apply andb_true_iff in Hseg0 as [Hc _].
    rewrite append_cons. unfold str_startswith. simpl.
    now rewrite (segment_char_not_slash c Hc). }
  rewrite Hstart. cbn [orb andb negb str_in].
  rewrite (split_once_not_in "#")
    by (apply (str_in_excluded path_char); [apply path_char_not_hash | exact Hchars]).
  rewrite (split_once_not_in "?")
    by (apply (str_in_excluded path_char); [apply path_char_not_question | exact Hchars]).
  rewrite (str_in_excluded path_char ";" _ path_char_not_semicolon Hchars).
  now rewrite andb_false_r.
Qed.

End OpaqueUriFacts.

(** X25: a URI without "//" after its scheme has no authority, and the first
    segment of its path is dropped whatever it holds: the raw segment list is
    the empty authority followed by the non-empty segments after the first
    one. *)
Theorem rel_filename_parts_opaque_uri (sch seg0 : string) (segs : list string) :
  valid_scheme sch ->
  str_forall segment_char seg0 = true ->
  is_empty seg0 = false ->
  Forall (fun s => str_forall segment_char s = true) segs ->
  exists url_parts,
    urlparse (opaque_uri_of sch seg0 segs) = Ok url_parts
    /\ netloc url_parts = ""
    /\ path url_parts = seg0 +:+ path_of_segments segs
    /\ rel_filename_parts url_parts
       = "" :: List.filter (fun s => negb (is_empty s)) segs.
Proof.
  intros Hsch Hseg0 Hne Hsegs.
  eexists. split; [now apply urlparse_opaque_uri |].
  split; [reflexivity |]. split; [reflexivity |].
  unfold rel_filename_parts. cbn [netloc path].
  now rewrite (str_split_segments seg0 segs Hseg0 Hsegs).
Qed.

(** ** Instances of the further properties *)

Import MoreScenarios.

Lemma filter_filename_part_keeps_dots_witness :
  str_split "." (filter_filename_part Slug.slugify "My File.tar.GZ" "_")
  = map (fun s => Slug.slugify s "_") (str_split "." "My File.tar.GZ")
  /\ count_char "." (filter_filename_part Slug.slugify "My File.tar.GZ" "_")
     = count_char "." "My File.tar.GZ".
Proof.
  apply (filter_filename_part_keeps_dots Slug.slugify "My File.tar.GZ" "_").
  repeat constructor.
Defined.

Lemma filter_filename_part_dots_witness :
  filter_filename_part Slug.slugify (dots 2) "_" = dots 2.
Proof. apply (filter_filename_part_dots Slug.slugify "_" 2). reflexivity. Defined.

Lemma uri_to_filename_of_components_witness :
  uri_to_filename Slug.slugify dl (absolute_uri_of "http" "example.com" ["a"; ""; "b.m3u8"])
    fresh
  = (Ok (path_join (_download_dir dl)
           (str_join sep
              (map (fun p => filter_filename_part Slug.slugify p "_")
                 ("example.com"
                  :: List.filter (fun s => negb (is_empty s)) ["a"; ""; "b.m3u8"])))),
     fresh)
  /\ uri_to_filename Slug.slugify dl (absolute_uri_of "http" "example.com" []) fresh
     = (Ok (path_join (_download_dir dl)
              (filter_filename_part Slug.slugify "example.com" "_")), fresh).
Proof.
  apply (uri_to_filename_of_components Slug.slugify dl "http" "example.com"
           ["a"; ""; "b.m3u8"] fresh).
  - split; reflexivity.
  - reflexivity.
  - repeat constructor.
Defined.

Lemma uri_to_filename_collisions_witness :
  uri_to_filename Slug.slugify dl (absolute_uri_of "http" "example.com" ["a"; ""; "b"]) fresh
  = uri_to_filename Slug.slugify dl (absolute_uri_of "https" "example.com" ["a"; "b"; ""])
      fresh.
Proof.
  apply (uri_to_filename_collisions Slug.slugify dl "http" "https" "example.com"
           ["a"; ""; "b"] ["a"; "b"; ""] fresh).
  - split; reflexivity.
  - split; reflexivity.
  - reflexivity.
  - repeat constructor.
  - repeat constructor.
  - reflexivity.
Defined.

Lemma uri_to_filename_leaves_download_dir_witness :
  uri_to_filename Slug.slugify dl (absolute_uri_of "http" "" ["etc"; "passwd"]) fresh
  = (Ok ("/" +:+ str_join sep
                   (map (fun p => filter_filename_part Slug.slugify p "_")
                      (List.filter (fun s => negb (is_empty s)) ["etc"; "passwd"]))),
     fresh).
Proof.
  apply (uri_to_filename_leaves_download_dir Slug.slugify dl "http" "" ["etc"; "passwd"]
           fresh).
  - split; reflexivity.
  - reflexivity.
  - repeat constructor.
  - reflexivity.
  - discriminate.
Defined.

Lemma uri_to_filename_under_download_dir_witness :
  exists filename,
    uri_to_filename Slug.slugify dl (absolute_uri_of "http" "example.com" ["a"; "b.m3u8"])
      fresh
    = (Ok filename, fresh)
    /\ filename
       = (if is_empty (_download_dir dl) || str_endswith_char "/" (_download_dir dl)
          then _download_dir dl
               +:+ str_join sep
                     (map (fun p => filter_filename_part Slug.slugify p "_")
                        ("example.com"
                         :: List.filter (fun s => negb (is_empty s)) ["a"; "b.m3u8"]))
          else _download_dir dl +:+ sep
               +:+ str_join sep
                     (map (fun p => filter_filename_part Slug.slugify p "_")
                        ("example.com"
                         :: List.filter (fun s => negb (is_empty s)) ["a"; "b.m3u8"])))
    /\ str_startswith (_download_dir dl) filename = true.
Proof.
  apply (uri_to_filename_under_download_dir Slug.slugify dl "http" "example.com"
           ["a"; "b.m3u8"] fresh).
  - split; reflexivity.
  - reflexivity.
  - repeat constructor.
  - vm_compute. discriminate.
  - vm_compute. reflexivity.
Defined.

Lemma uri_to_filename_same_path_witness :
  filtered_parts Slug.slugify (mkParseResult "http" "example.com" "/a/b.m3u8" "" "" "")
  = filtered_parts Slug.slugify (mkParseResult "https" "EXAMPLE.com" "/A//b.m3u8" "" "x=1" "").
Proof.
  apply (uri_to_filename_same_path Slug.slugify dl uri_b "https://EXAMPLE.com/A//b.m3u8?x=1"
           (mkParseResult "http" "example.com" "/a/b.m3u8" "" "" "")
           (mkParseResult "https" "EXAMPLE.com" "/A//b.m3u8" "" "x=1" "") fresh).
  - vm_compute. reflexivity.
  - vm_compute. reflexivity.
  - repeat constructor.
  - repeat constructor.
  - vm_compute. discriminate.
  - vm_compute. discriminate.
  - vm_compute. reflexivity.
Defined.

Lemma download_one_file_unbalanced_brackets_witness :
  uri_to_filename Slug.slugify dl (absolute_uri_of "http" "[::1" ["a"]) fresh
  = (Raise ValueError, fresh)
  /\ download_one_file Slug.slugify session_no_length dl
       (absolute_uri_of "http" "[::1" ["a"]) fresh
     = (Raise ValueError, fresh).
Proof.
  apply (download_one_file_unbalanced_brackets Slug.slugify session_no_length dl
           "http" "[::1" ["a"] fresh).
  - split; reflexivity.
  - reflexivity.
  - repeat constructor.
  - reflexivity.
Defined.

Lemma download_one_file_bad_content_length_witness :
  download_one_file Slug.slugify session_bad_length dl uri_b on_disk_b
  = (Raise ValueError,
     mkWorld (heap on_disk_b) (fs on_disk_b) (net_log on_disk_b ++ [HEAD uri_b])
       (log_records on_disk_b)).
Proof.
  apply (download_one_file_bad_content_length Slug.slugify session_bad_length dl uri_b
           path_b on_disk_b "abc" body_ab).
  - vm_compute. reflexivity.
  - vm_compute. discriminate.
  - vm_compute. reflexivity.
  - reflexivity.
  - vm_compute. reflexivity.
Defined.

Lemma download_one_file_head_fails_witness :
  download_one_file Slug.slugify session_head_down dl uri_b on_disk_b
  = (Raise RequestException,
     mkWorld (heap on_disk_b) (fs on_disk_b) (net_log on_disk_b ++ [HEAD uri_b])
       (log_records on_disk_b)).
Proof.
  apply (download_one_file_head_fails Slug.slugify session_head_down dl uri_b
           path_b on_disk_b RequestException body_ab).
  - vm_compute. reflexivity.
  - vm_compute. discriminate.
  - vm_compute. reflexivity.
  - reflexivity.
Defined.



Lemma download_one_file_ignores_status_witness :
  download_one_file Slug.slugify session_no_length dl uri_b on_disk_b
  = download_one_file Slug.slugify session_not_found dl uri_b on_disk_b.
Proof.
  apply (download_one_file_ignores_status Slug.slugify session_no_length
           session_not_found dl uri_b on_disk_b).
  - reflexivity.
  - reflexivity.
Defined.

Lemma download_one_file_path_is_directory_witness :
  exists w',
    download_one_file Slug.slugify session_no_length dl uri_q1 dir_in_the_way
    = (Raise IsADirectoryError, w')
    /\ fs w' = fs dir_in_the_way /\ heap w' = heap dir_in_the_way
    /\ net_log w' = (net_log dir_in_the_way ++ [GET uri_q1])%list.
Proof.
  apply (download_one_file_path_is_directory Slug.slugify session_no_length dl uri_q1
           path_q dir_in_the_way).
  - vm_compute. reflexivity.
  - vm_compute. discriminate.
  - vm_compute. reflexivity.
  - vm_compute. reflexivity.
  - left. exists (mkGet 200 body_xyz). reflexivity.
Defined.

Lemma download_one_file_directory_is_file_witness :
  exists e,
    download_one_file Slug.slugify session_no_length dl uri_b on_disk_q
    = (Raise e, on_disk_q)
    /\ (e = FileExistsError \/ e = NotADirectoryError).
Proof.
  apply (download_one_file_directory_is_file Slug.slugify session_no_length dl uri_b
           path_b on_disk_q body_ab).
  - vm_compute. reflexivity.
  - vm_compute. discriminate.
  - vm_compute. reflexivity.
  - vm_compute. reflexivity.
  - vm_compute. reflexivity.
Defined.

Lemma download_one_file_touches_one_file_witness :
  (forall p n,
     fs plain_disk_b !! p = Some n ->
     fs (snd (download_one_file Slug.slugify session_no_length dl uri_b plain_disk_b)) !! p
     = Some n
     \/ (p = path_b
         /\ exists c c',
              n = File c
              /\ fs (snd (download_one_file Slug.slugify session_no_length dl uri_b
                            plain_disk_b)) !! p = Some (File c')))
  /\ (forall p c,
        fs (snd (download_one_file Slug.slugify session_no_length dl uri_b plain_disk_b))
          !! p = Some (File c) ->
        (exists c0, fs plain_disk_b !! p = Some (File c0)) \/ p = path_b).
Proof.
  apply (download_one_file_touches_one_file Slug.slugify session_no_length dl uri_b
           path_b plain_disk_b
           (snd (download_one_file Slug.slugify session_no_length dl uri_b plain_disk_b))
           (fst (download_one_file Slug.slugify session_no_length dl uri_b plain_disk_b))).
  - vm_compute. reflexivity.
  - vm_compute. reflexivity.
  - vm_compute. reflexivity.
  - vm_compute. reflexivity.
Defined.

Lemma record_keys_grow_witness :
  List.NoDup (keys (record_of dl (run Slug.slugify dl
                                    [(session_q, uri_q1); (session_q, uri_q2)] on_disk_q)))
  /\ (exists more,
        keys (record_of dl (run Slug.slugify dl
                              [(session_q, uri_q1); (session_q, uri_q2)] on_disk_q))
        = (keys (record_of dl on_disk_q) ++ more)%list)
  /\ (forall k,
        In k (keys (record_of dl (run Slug.slugify dl
                                    [(session_q, uri_q1); (session_q, uri_q2)] on_disk_q))) ->
        In k (keys (record_of dl on_disk_q))
        \/ exists session, In (session, k) [(session_q, uri_q1); (session_q, uri_q2)]).
Proof.
  apply (record_keys_grow Slug.slugify dl [(session_q, uri_q1); (session_q, uri_q2)]
           on_disk_q).
  vm_compute. constructor.
Defined.

Lemma download_one_file_record_effect_witness :
  (forall p,
     fst (download_one_file Slug.slugify session_no_length dl uri_b on_disk_b) = Ok p ->
     uri_to_filename Slug.slugify dl uri_b on_disk_b = (Ok p, on_disk_b)
     /\ OrderedDict.get
          (record_of dl (snd (download_one_file Slug.slugify session_no_length dl uri_b
                                on_disk_b))) uri_b = Some p)
  /\ (forall u, u <> uri_b ->
                OrderedDict.get
                  (record_of dl (snd (download_one_file Slug.slugify session_no_length dl
                                        uri_b on_disk_b))) u
                = OrderedDict.get (record_of dl on_disk_b) u).
Proof.
  apply (download_one_file_record_effect Slug.slugify session_no_length dl uri_b
           on_disk_b
           (snd (download_one_file Slug.slugify session_no_length dl uri_b on_disk_b))
           (fst (download_one_file Slug.slugify session_no_length dl uri_b on_disk_b))).
  vm_compute. reflexivity.
Defined.

Lemma download_one_file_failed_get_creates_file_witness :
  download_one_file Slug.slugify session_down dl uri_b plain_dirs
  = (Raise UnboundLocalError,
     mkWorld (heap plain_dirs) (<[path_b := File []]> (fs plain_dirs))
       (net_log plain_dirs ++ [GET uri_b])
       (log_records plain_dirs
        ++ [LogInfo "Downloading %s to %s" [uri_b; path_b];
            LogException RequestException])).
Proof.
  apply (download_one_file_failed_get_creates_file Slug.slugify session_down dl uri_b path_b
           plain_dirs).
  - vm_compute. reflexivity.
  - vm_compute. reflexivity.
  - vm_compute. reflexivity.
  - vm_compute. discriminate.
  - vm_compute. reflexivity.
  - reflexivity.
  - vm_compute. reflexivity.
  - vm_compute. reflexivity.
  - reflexivity.
Defined.

Lemma rel_filename_parts_opaque_uri_witness :
  exists url_parts,
    urlparse (opaque_uri_of "file" "etc" ["passwd"]) = Ok url_parts
    /\ netloc url_parts = ""
    /\ path url_parts = "etc" +:+ path_of_segments ["passwd"]
    /\ rel_filename_parts url_parts
       = "" :: List.filter (fun s => negb (is_empty s)) ["passwd"].
Proof.
  apply (rel_filename_parts_opaque_uri "file" "etc" ["passwd"]).
  - split; reflexivity.
  - reflexivity.
  - reflexivity.
  - repeat constructor.
Defined.

(** ** The record over a session without collisions *)

Section CollisionFacts.


(** Spellings that are not plain, and pairs of spellings of one file. *)
Example plain_path_examples :
  plain_path "/data/example.com/a/b.m3u8" = true
  /\ plain_path "data/example.com/a" = true
  /\ plain_path "/data/example.com/../x" = false
  /\ plain_path "/data/example.com//x" = false
  /\ plain_path "./example.com/x" = false
  /\ plain_path "" = false.
Proof. repeat split; vm_compute; reflexivity. Qed.

Example may_name_same_file_examples :
  may_name_same_file "/data/example.com//x" "/data/example.com/x" = true
  /\ may_name_same_file "/data/example.com/a/../x" "/data/example.com/x" = true
  /\ may_name_same_file "data/x" "/srv/data/x" = true
  /\ may_name_same_file "../x" "x" = true
  /\ may_name_same_file "/data/example.com/a/../x" "/data/example.com/y" = false
  /\ may_name_same_file "/data/example.com/a" "/data/example.com/a/b.m3u8" = false
  /\ may_name_same_file "data/x" "/data/y" = false.
Proof. repeat split; vm_compute; reflexivity. Qed.

End CollisionFacts.


(** A session without collisions: [uri_q1] is recorded by the size check,
    [uri_c] by a fetch, and the second call for [uri_q1] is answered by the
    record. *)
Example run_without_collisions :
  record_of dl
    (run Slug.slugify dl [(session_q, uri_q1); (session_q, uri_c); (session_q, uri_q1)]
       on_disk_q)
  = [(uri_q1, path_q); (uri_c, path_c)]
  /\ net_log
       (run Slug.slugify dl [(session_q, uri_q1); (session_q, uri_c); (session_q, uri_q1)]
          on_disk_q)
     = [HEAD uri_q1; GET uri_c].
Proof. split; vm_compute; reflexivity. Qed.

